(** * Job-application tracker: session store and request gateway

    A shallow embedding of the two pieces of the application that sit above
    pure presentation:

    - [src/contexts/AuthContext.jsx]: the session store ([MOCK_USERS], the
      restore effect, [login], [register], [logout]);
    - [src/services/api.ts]: the request gateway ([MOCK_DATA], the request
      interceptor and the response interceptor).

    The browser is modelled only as far as the two files use it: strings with
    [includes] and [toLowerCase], [localStorage], [JSON], [Date.now],
    [window.location.href] and the toast notifications. *)

From Stdlib Require Import ZArith Ascii.
From stdpp Require Import base option list strings gmap pretty.

Local Open Scope Z_scope.

(** ** JavaScript strings

    A JavaScript string is modelled by a Rocq [string], read as its UTF-8
    bytes. *)
Module JsString.

(** A string is falsy exactly when it is empty. *)
Definition truthy (s : string) : bool :=
  match s with
  | EmptyString => false
  | String _ _ => true
  end.

(** [s.includes(sub)]: [sub] occurs in [s] as a contiguous substring. *)
Fixpoint includes (s sub : string) : bool :=
  String.prefix sub s ||
  match s with
  | EmptyString => false
  | String _ s' => includes s' sub
  end.

Definition toLowerCase_char (c : ascii) : ascii :=
  let n := nat_of_ascii c in
  if ((65 <=? n) && (n <=? 90))%nat then ascii_of_nat (n + 32) else c.

(** [s.toLowerCase()], modelled on the letters A-Z only: the bytes of a
    letter outside ASCII are kept as they are.  No code point outside ASCII
    has a lower case made of the letters g, e, t (the only ones that lower to
    an ASCII letter are U+212A, to k, and U+0130, to i and a combining dot),
    so the gateway's test [method === 'get'] on a lowered method gives the
    same answer in the model as in the browser. *)
Fixpoint toLowerCase (s : string) : string :=
  match s with
  | EmptyString => EmptyString
  | String c s' => String (toLowerCase_char c) (toLowerCase s')
  end.

End JsString.

(** ** JSON

    The values [JSON.parse] can return, and a reference implementation of
    [JSON.stringify] and [JSON.parse] over them.  The operations of the
    session store are stated for an arbitrary [JsonRuntime] (below); the
    reference implementation is what the examples run on. *)
Module JSON.

(** A number is kept as the exact decimal [mantissa * 10 ^ exponent], with
    no trailing zero in the mantissa; rounding to a double and the sign of
    zero are not modelled.  An object is the list of its members in
    insertion order (the browser lists integer-like keys first). *)
#[local] Set Warnings "-register-all".
Inductive value : Type :=
| VNull
| VBool (b : bool)
| VNumber (mantissa exponent : Z)
| VString (s : string)
| VArray (items : list value)
| VObject (members : list (string * value)).

(** ToBoolean on a parsed value. *)
Definition truthy (v : value) : bool :=
  match v with
  | VNull => false
  | VBool b => b
  | VNumber m _ => negb (m =? 0)
  | VString s => JsString.truthy s
  | VArray _ | VObject _ => true
  end.

(** Property read [v.k] (own data properties of an object only). *)
Fixpoint assoc (k : string) (ms : list (string * value)) : option value :=
  match ms with
  | [] => None
  | (k', v) :: ms' => if String.eqb k k' then Some v else assoc k ms'
  end.

Definition get (k : string) (v : value) : option value :=
  match v with
  | VObject ms => assoc k ms
  | _ => None
  end.

(** Property write: an existing key keeps its place. *)
Fixpoint obj_set (k : string) (v : value) (ms : list (string * value))
  : list (string * value) :=
  match ms with
  | [] => [(k, v)]
  | (k', v') :: ms' =>
      if String.eqb k k' then (k, v) :: ms' else (k', v') :: obj_set k v ms'
  end.

(** *** Characters *)

Definition quote : ascii := "034"%char.
Definition backslash : ascii := "092"%char.

Definition hex_digit (n : N) : ascii :=
  ascii_of_N (if (n <? 10)%N then 48 + n else 87 + n)%N.

Definition hex_value (c : ascii) : option N :=
  let n := N_of_ascii c in
  if ((48 <=? n) && (n <=? 57))%N then Some (n - 48)%N
  else if ((97 <=? n) && (n <=? 102))%N then Some (n - 87)%N
  else if ((65 <=? n) && (n <=? 70))%N then Some (n - 55)%N
  else None.

Definition is_digit (c : ascii) : bool :=
  let n := N_of_ascii c in ((48 <=? n) && (n <=? 57))%N.

Definition digit_value (c : ascii) : Z := Z.of_N (N_of_ascii c) - 48.

Definition is_ws (c : ascii) : bool :=
  let n := N_of_ascii c in
  ((n =? 32) || (n =? 9) || (n =? 10) || (n =? 13))%N.

(** *** JSON.stringify *)

Definition escape_char (c : ascii) : string :=
  let n := N_of_ascii c in
  if (n =? 8)%N then String backslash "b"
  else if (n =? 9)%N then String backslash "t"
  else if (n =? 10)%N then String backslash "n"
  else if (n =? 12)%N then String backslash "f"
  else if (n =? 13)%N then String backslash "r"
  else if (n =? 34)%N then String backslash (String quote "")
  else if (n =? 92)%N then String backslash (String backslash "")
  else if (n <? 32)%N then
    String backslash
      ("u00" +:+ String (hex_digit (n / 16)) (String (hex_digit (n mod 16)) ""))
  else String c "".

Fixpoint escape (s : string) : string :=
  match s with
  | EmptyString => EmptyString
  | String c s' => escape_char c +:+ escape s'
  end.

Definition quote_string (s : string) : string :=
  String quote (escape s +:+ String quote "").

Fixpoint zeros (n : nat) : string :=
  match n with
  | O => ""
  | S n' => String "0" (zeros n')
  end.

Fixpoint string_take (n : nat) (s : string) : string :=
  match n, s with
  | S n', String c s' => String c (string_take n' s')
  | _, _ => ""
  end.

Fixpoint string_drop (n : nat) (s : string) : string :=
  match n, s with
  | S n', String _ s' => string_drop n' s'
  | _, _ => s
  end.

(** Number::toString for the decimal [m * 10 ^ e], [0 < m]. *)
Definition positive_to_string (m e : Z) : string :=
  let digits := pretty m in
  let k := Z.of_nat (String.length digits) in
  let n := k + e in
  if (k <=? n) && (n <=? 21) then digits +:+ zeros (Z.to_nat (n - k))
  else if (0 <? n) && (n <=? 21) then
    string_take (Z.to_nat n) digits +:+ "." +:+ string_drop (Z.to_nat n) digits
  else if (-6 <? n) && (n <=? 0) then "0." +:+ zeros (Z.to_nat (- n)) +:+ digits
  else
    let x := n - 1 in
    let tail := "e" +:+ (if 0 <=? x then "+" else "-") +:+ pretty (Z.abs x) in
    if k =? 1 then digits +:+ tail
    else string_take 1 digits +:+ "." +:+ string_drop 1 digits +:+ tail.

Definition number_to_string (m e : Z) : string :=
  if m =? 0 then "0"
  else if m <? 0 then "-" +:+ positive_to_string (- m) e
  else positive_to_string m e.

Definition join (sep : string) (parts : list string) : string :=
  match parts with
  | [] => ""
  | p :: ps => p +:+ fold_right (fun q acc => sep +:+ q +:+ acc) "" ps
  end.

Fixpoint stringify (v : value) : string :=
  match v with
  | VNull => "null"
  | VBool true => "true"
  | VBool false => "false"
  | VNumber m e => number_to_string m e
  | VString s => quote_string s
  | VArray items => "[" +:+ join "," (map stringify items) +:+ "]"
  | VObject members =>
      "{" +:+
      join "," (map (fun kv => quote_string (fst kv) +:+ ":" +:+
                               stringify (snd kv)) members) +:+
      "}"
  end.

(** *** JSON.parse *)

Fixpoint skip_ws (s : string) : string :=
  match s with
  | String c s' => if is_ws c then skip_ws s' else s
  | EmptyString => EmptyString
  end.

(** A string literal is read into its code units: bytes copied from the
    text, and the 16-bit units written as [\uXXXX]. *)
Inductive code : Type :=
| Raw (c : ascii)
| Unit16 (u : N).

Definition hex4 (a b c d : ascii) : option N :=
  a' ← hex_value a; b' ← hex_value b; c' ← hex_value c; d' ← hex_value d;
  Some (((a' * 16 + b') * 16 + c') * 16 + d')%N.

(** The text after an opening quote, up to the closing one. *)
Fixpoint string_body (s : string) : option (list code * string) :=
  match s with
  | EmptyString => None
  | String c rest =>
      if Ascii.eqb c quote then Some ([], rest)
      else if Ascii.eqb c backslash then
        match rest with
        | String e rest' =>
            let escaped (b : N) :=
              r ← string_body rest'; Some (Raw (ascii_of_N b) :: r.1, r.2) in
            match N_of_ascii e with
            | 34%N => escaped 34%N
            | 92%N => escaped 92%N
            | 47%N => escaped 47%N
            | 98%N => escaped 8%N
            | 102%N => escaped 12%N
            | 110%N => escaped 10%N
            | 114%N => escaped 13%N
            | 116%N => escaped 9%N
            | 117%N =>
                match rest' with
                | String h1 (String h2 (String h3 (String h4 rest''))) =>
                    u ← hex4 h1 h2 h3 h4;
                    r ← string_body rest'';
                    Some (Unit16 u :: r.1, r.2)
                | _ => None
                end
            | _ => None
            end
        | EmptyString => None
        end
      else if (N_of_ascii c <? 32)%N then None
      else r ← string_body rest; Some (Raw c :: r.1, r.2)
  end.

Definition utf8 (cp : N) : string :=
  let byte (n : N) := ascii_of_N n in
  (if cp <? 128 then String (byte cp) ""
   else if cp <? 2048 then
     String (byte (192 + cp / 64)) (String (byte (128 + cp mod 64)) "")
   else if cp <? 65536 then
     String (byte (224 + cp / 4096))
       (String (byte (128 + (cp / 64) mod 64))
          (String (byte (128 + cp mod 64)) ""))
   else
     String (byte (240 + cp / 262144))
       (String (byte (128 + (cp / 4096) mod 64))
          (String (byte (128 + (cp / 64) mod 64))
             (String (byte (128 + cp mod 64)) ""))))%N.

Definition is_high (u : N) : bool := ((55296 <=? u) && (u <=? 56319))%N.
Definition is_low (u : N) : bool := ((56320 <=? u) && (u <=? 57343))%N.

(** A high surrogate followed by a low one is one code point. *)
Fixpoint assemble (cs : list code) : string :=
  match cs with
  | [] => ""
  | Raw c :: cs' => String c (assemble cs')
  | Unit16 hi :: cs' =>
      match cs' with
      | Unit16 lo :: cs'' =>
          if is_high hi && is_low lo
          then utf8 (65536 + (hi - 55296) * 1024 + (lo - 56320))%N +:+ assemble cs''
          else utf8 hi +:+ assemble cs'
      | _ => utf8 hi +:+ assemble cs'
      end
  end.

Definition parse_string (s : string) : option (string * string) :=
  r ← string_body s; Some (assemble r.1, r.2).

Fixpoint take_digits (s : string) : list Z * string :=
  match s with
  | String c s' =>
      if is_digit c
      then let r := take_digits s' in (digit_value c :: r.1, r.2)
      else ([], s)
  | EmptyString => ([], EmptyString)
  end.

Definition of_digits (ds : list Z) : Z :=
  fold_left (fun acc d => 10 * acc + d) ds 0.

Fixpoint drop_zeros (ds : list Z) : nat * list Z :=
  match ds with
  | d :: ds' =>
      if d =? 0 then let r := drop_zeros ds' in (S r.1, r.2) else (O, ds)
  | [] => (O, [])
  end.

Definition make_number (negative : bool) (ds : list Z) (e : Z) : value :=
  let r := drop_zeros (rev ds) in
  let m := of_digits (rev r.2) in
  if m =? 0 then VNumber 0 0
  else VNumber (if negative then - m else m) (e + Z.of_nat r.1).

Definition parse_int_part (s : string) : option (list Z * string) :=
  match s with
  | String c s' =>
      if Ascii.eqb c "0" then Some ([0], s')
      else if is_digit c then Some (take_digits s)
      else None
  | EmptyString => None
  end.

Definition parse_frac_part (s : string) : option (list Z * string) :=
  match s with
  | String "." s' =>
      let r := take_digits s' in
      match r.1 with [] => None | _ => Some r end
  | _ => Some ([], s)
  end.

Definition parse_exp_part (s : string) : option (Z * string) :=
  let digits (negative : bool) (s' : string) :=
    let r := take_digits s' in
    match r.1 with
    | [] => None
    | ds => Some (if negative then - of_digits ds else of_digits ds, r.2)
    end in
  match s with
  | String c s' =>
      if Ascii.eqb c "e" || Ascii.eqb c "E" then
        match s' with
        | String "+" s'' => digits false s''
        | String "-" s'' => digits true s''
        | _ => digits false s'
        end
      else Some (0, s)
  | EmptyString => Some (0, s)
  end.

Definition parse_number (s : string) : option (value * string) :=
  let (negative, s1) :=
    match s with String "-" s' => (true, s') | _ => (false, s) end in
  i ← parse_int_part s1;
  f ← parse_frac_part i.2;
  e ← parse_exp_part f.2;
  Some (make_number negative (i.1 ++ f.1) (e.1 - Z.of_nat (length f.1)), e.2).

Definition parse_literal (s : string) : option (value * string) :=
  if String.prefix "null" s then Some (VNull, string_drop 4 s)
  else if String.prefix "true" s then Some (VBool true, string_drop 4 s)
  else if String.prefix "false" s then Some (VBool false, string_drop 5 s)
  else parse_number s.

(** Every call below is made after at least one more character has been
    read, so [2 * length s + 2] levels are enough for a text [s]. *)
Fixpoint parse_value (fuel : nat) (s : string) : option (value * string) :=
  match fuel with
  | O => None
  | S fuel' =>
      match skip_ws s with
      | String "{" rest =>
          match skip_ws rest with
          | String "}" rest' => Some (VObject [], rest')
          | _ => parse_members fuel' [] rest
          end
      | String "[" rest =>
          match skip_ws rest with
          | String "]" rest' => Some (VArray [], rest')
          | _ => parse_elements fuel' [] rest
          end
      | String c rest as s' =>
          if Ascii.eqb c quote
          then r ← parse_string rest; Some (VString r.1, r.2)
          else parse_literal s'
      | EmptyString => None
      end
  end
with parse_elements (fuel : nat) (acc : list value) (s : string)
  : option (value * string) :=
  match fuel with
  | O => None
  | S fuel' =>
      r ← parse_value fuel' s;
      match skip_ws r.2 with
      | String "," rest => parse_elements fuel' (r.1 :: acc) rest
      | String "]" rest => Some (VArray (rev (r.1 :: acc)), rest)
      | _ => None
      end
  end
with parse_members (fuel : nat) (acc : list (string * value)) (s : string)
  : option (value * string) :=
  match fuel with
  | O => None
  | S fuel' =>
      match skip_ws s with
      | String c rest =>
          if Ascii.eqb c quote then
            k ← parse_string rest;
            match skip_ws k.2 with
            | String ":" rest' =>
                r ← parse_value fuel' rest';
                match skip_ws r.2 with
                | String "," rest'' =>
                    parse_members fuel' (obj_set k.1 r.1 acc) rest''
                | String "}" rest'' =>
                    Some (VObject (obj_set k.1 r.1 acc), rest'')
                | _ => None
                end
            | _ => None
            end
          else None
      | EmptyString => None
      end
  end.

(** [JSON.parse(text)]: [None] stands for the SyntaxError it throws. *)
Definition parse (text : string) : option value :=
  r ← parse_value (2 * String.length text + 2) text;
  match skip_ws r.2 with
  | EmptyString => Some r.1
  | String _ _ => None
  end.

End JSON.

(** The two functions of the global [JSON] object, as the session store uses
    them.  [JSON_parse text = inl msg] stands for the [SyntaxError] with
    message [msg] that [JSON.parse(text)] throws on a malformed text. *)
Class JsonRuntime : Type := {
  JSON_stringify : JSON.value → string;
  JSON_parse : string → string + JSON.value;
}.

(** The reference implementation as a runtime. *)
Definition reference_runtime : JsonRuntime := {|
  JSON_stringify := JSON.stringify;
  JSON_parse text :=
    match JSON.parse text with
    | Some v => inr v
    | None => inl "Unexpected token in JSON"
    end;
|}.

(** ** Fixture records of [MOCK_DATA] (api.ts) *)

Module Application.
Record t : Type := mk {
  id : string;
  company : string;
  position : string;
  status : string;
  appliedDate : string;
  salary : Z;
  location : string;
  notes : string;
}.
End Application.

Module Resume.
Record t : Type := mk {
  id : string;
  name : string;
  filename : string;
  fileSize : Z;
  uploadDate : string;
  isDefault : bool;
  tags : list string;
  usageCount : Z;
}.
End Resume.

Module Reminder.
Record t : Type := mk {
  id : string;
  title : string;
  description : string;
  date : string;
  time : string;
  type : string;
  isCompleted : bool;
  notificationSent : bool;
}.
End Reminder.

Module MockData.
Record t : Type := mk {
  applications : list Application.t;
  resumes : list Resume.t;
  reminders : list Reminder.t;
}.
End MockData.

Definition MOCK_DATA : MockData.t := {|
  MockData.applications := [
    {| Application.id := "1";
       Application.company := "Google";
       Application.position := "Senior Frontend Developer";
       Application.status := "interview";
       Application.appliedDate := "2024-01-15";
       Application.salary := 150000;
       Application.location := "Mountain View, CA";
       Application.notes := "Great company culture, exciting projects" |};
    {| Application.id := "2";
       Application.company := "Microsoft";
       Application.position := "Full Stack Engineer";
       Application.status := "applied";
       Application.appliedDate := "2024-01-10";
       Application.salary := 140000;
       Application.location := "Seattle, WA";
       Application.notes := "Applied through LinkedIn" |};
    {| Application.id := "3";
       Application.company := "Apple";
       Application.position := "iOS Developer";
       Application.status := "offer";
       Application.appliedDate := "2024-01-05";
       Application.salary := 160000;
       Application.location := "Cupertino, CA";
       Application.notes := "Received offer, considering options" |}
  ];
  MockData.resumes := [
    {| Resume.id := "1";
       Resume.name := "Senior Developer Resume";
       Resume.filename := "resume-senior-dev.pdf";
       Resume.fileSize := 245760;
       Resume.uploadDate := "2024-01-01";
       Resume.isDefault := true;
       Resume.tags := ["senior"; "frontend"; "react"];
       Resume.usageCount := 5 |};
    {| Resume.id := "2";
       Resume.name := "Full Stack Resume";
       Resume.filename := "resume-fullstack.pdf";
       Resume.fileSize := 198432;
       Resume.uploadDate := "2024-01-02";
       Resume.isDefault := false;
       Resume.tags := ["fullstack"; "javascript"; "node"];
       Resume.usageCount := 3 |}
  ];
  MockData.reminders := [
    {| Reminder.id := "1";
       Reminder.title := "Google Interview";
       Reminder.description := "Technical interview with the frontend team";
       Reminder.date := "2024-01-25";
       Reminder.time := "14:00";
       Reminder.type := "interview";
       Reminder.isCompleted := false;
       Reminder.notificationSent := false |};
    {| Reminder.id := "2";
       Reminder.title := "Follow up with Microsoft";
       Reminder.description := "Send follow-up email about application status";
       Reminder.date := "2024-01-20";
       Reminder.time := "10:00";
       Reminder.type := "follow-up";
       Reminder.isCompleted := false;
       Reminder.notificationSent := false |}
  ];
|}.

(** ** Payloads of the fixture responses (api.ts, response interceptor) *)

Module Stats.
Record t : Type := mk {
  totalApplications : nat;
  appliedCount : nat;
  interviewCount : nat;
  offerCount : nat;
  rejectedCount : nat;
  recentApplications : list Application.t;
  upcomingReminders : list Reminder.t;
}.
End Stats.

Module Chart.
Record t : Type := mk {
  labels : list string;
  data : list Z;
}.
End Chart.

Module Analytics.
Record t : Type := mk {
  statusDistribution : Chart.t;
  monthlyApplications : Chart.t;
  topCompanies : Chart.t;
  responseRate : Z;
  averageResponseTime : Z;
  totalApplications : Z;
  successRate : Z;
}.
End Analytics.

(** What the [data] property of a fixture response holds. *)
Inductive payload : Type :=
| ApplicationList (l : list Application.t)
| ResumeList (l : list Resume.t)
| ReminderList (l : list Reminder.t)
| DashboardStats (s : Stats.t)
| AnalyticsBundle (a : Analytics.t).

(** The object [{ data: ... }] a fixture resolves with. *)
Record response : Type := { data : payload }.

(** ** Requests and errors of the gateway *)

(** The request configuration: [url] and [method] may be undefined. *)
Record request_config : Type := {
  url : option string;
  method : option string;
  headers : gmap string string;
}.

Record http_response : Type := { status : Z }.

(** The error the response interceptor receives: [code], [config] and
    [response] may each be undefined. *)
Record axios_error : Type := {
  code : option string;
  config : option request_config;
  error_response : option http_response;
  error_message : string;
}.

(** Thrown values (the reason of a rejected promise). *)
Inductive exn : Type :=
| Error (message : string)
| SyntaxError (message : string)
| TypeError (message : string)
| AxiosError (e : axios_error).

(** [error.message] *)
Definition message (e : exn) : string :=
  match e with
  | Error m | SyntaxError m | TypeError m => m
  | AxiosError e => error_message e
  end.

(** ** The state of the page *)

Module MockUser.
Record t : Type := mk {
  id : string;
  email : string;
  password : string;
  name : string;
  isVerified : bool;
}.
End MockUser.

Inductive toast : Type :=
| toast_success_shown (text : string)
| toast_error_shown (text : string).

(** - [localStorage]: the browser's persisted storage;
    - [defaults_headers_common]: [api.defaults.headers.common];
    - [user], [loading]: the two state variables of [AuthProvider];
    - [MOCK_USERS]: the module-level user table of AuthContext.jsx;
    - [location_href]: [window.location.href];
    - [Date_now]: what [Date.now()] returns;
    - [toasts]: the notifications shown so far, oldest first.
    Console output is not part of the state. *)
Record state : Type := {
  localStorage : gmap string string;
  defaults_headers_common : gmap string string;
  user : JSON.value;
  loading : bool;
  MOCK_USERS : list MockUser.t;
  location_href : string;
  Date_now : Z;
  toasts : list toast;
}.

(** The user table as the module declares it. *)
Definition MOCK_USERS_initial : list MockUser.t := [
  {| MockUser.id := "1";
     MockUser.email := "demo@jobtracker.com";
     MockUser.password := "password123";
     MockUser.name := "Demo User";
     MockUser.isVerified := true |};
  {| MockUser.id := "2";
     MockUser.email := "john@example.com";
     MockUser.password := "password123";
     MockUser.name := "John Smith";
     MockUser.isVerified := true |};
  {| MockUser.id := "3";
     MockUser.email := "test@test.com";
     MockUser.password := "test123";
     MockUser.name := "Test User";
     MockUser.isVerified := true |}
].

(** A freshly loaded page: [useState(null)], [useState(true)], the declared
    user table, no default Authorization header; the storage is whatever the
    browser kept. *)
Definition page_load (storage : gmap string string) (href : string) (now : Z)
  : state := {|
  localStorage := storage;
  defaults_headers_common := ∅;
  user := JSON.VNull;
  loading := true;
  MOCK_USERS := MOCK_USERS_initial;
  location_href := href;
  Date_now := now;
  toasts := [];
|}.

(** The view layer tests [user] for truthiness. *)
Definition authenticated (st : state) : bool := JSON.truthy (user st).


(** ** Effects

    A computation reads and writes the state of the page and either returns
    a value or throws; what it wrote before throwing stays written. *)
Definition M (A : Type) : Type := state → (exn + A) * state.

#[export] Instance M_ret : MRet M := λ A x st, (inr x, st).

#[export] Instance M_bind : MBind M := λ A B f m st,
  match m st with
  | (inr x, st') => f x st'
  | (inl e, st') => (inl e, st')
  end.

Definition throw {A : Type} (e : exn) : M A := λ st, (inl e, st).

(** [try { body } catch (error) { handler }] *)
Definition try_catch {A : Type} (body : M A) (handler : exn → M A) : M A :=
  λ st,
    match body st with
    | (inl e, st') => handler e st'
    | (inr x, st') => (inr x, st')
    end.

Definition gets {A : Type} (f : state → A) : M A := λ st, (inr (f st), st).

Definition modify (f : state → state) : M unit := λ st, (inr (), f st).

Definition with_localStorage (f : gmap string string → gmap string string)
  (st : state) : state := {|
  localStorage := f (localStorage st);
  defaults_headers_common := defaults_headers_common st;
  user := user st;
  loading := loading st;
  MOCK_USERS := MOCK_USERS st;
  location_href := location_href st;
  Date_now := Date_now st;
  toasts := toasts st;
|}.

Definition with_defaults_headers_common
  (f : gmap string string → gmap string string) (st : state) : state := {|
  localStorage := localStorage st;
  defaults_headers_common := f (defaults_headers_common st);
  user := user st;
  loading := loading st;
  MOCK_USERS := MOCK_USERS st;
  location_href := location_href st;
  Date_now := Date_now st;
  toasts := toasts st;
|}.

Definition with_user (v : JSON.value) (st : state) : state := {|
  localStorage := localStorage st;
  defaults_headers_common := defaults_headers_common st;
  user := v;
  loading := loading st;
  MOCK_USERS := MOCK_USERS st;
  location_href := location_href st;
  Date_now := Date_now st;
  toasts := toasts st;
|}.

Definition with_loading (b : bool) (st : state) : state := {|
  localStorage := localStorage st;
  defaults_headers_common := defaults_headers_common st;
  user := user st;
  loading := b;
  MOCK_USERS := MOCK_USERS st;
  location_href := location_href st;
  Date_now := Date_now st;
  toasts := toasts st;
|}.

Definition with_MOCK_USERS (f : list MockUser.t → list MockUser.t)
  (st : state) : state := {|
  localStorage := localStorage st;
  defaults_headers_common := defaults_headers_common st;
  user := user st;
  loading := loading st;
  MOCK_USERS := f (MOCK_USERS st);
  location_href := location_href st;
  Date_now := Date_now st;
  toasts := toasts st;
|}.

Definition with_location_href (href : string) (st : state) : state := {|
  localStorage := localStorage st;
  defaults_headers_common := defaults_headers_common st;
  user := user st;
  loading := loading st;
  MOCK_USERS := MOCK_USERS st;
  location_href := href;
  Date_now := Date_now st;
  toasts := toasts st;
|}.

Definition with_toast (t : toast) (st : state) : state := {|
  localStorage := localStorage st;
  defaults_headers_common := defaults_headers_common st;
  user := user st;
  loading := loading st;
  MOCK_USERS := MOCK_USERS st;
  location_href := location_href st;
  Date_now := Date_now st;
  toasts := toasts st ++ [t];
|}.

(** *** The browser and library calls the two files make *)

Definition localStorage_getItem (key : string) : M (option string) :=
  gets (λ st, localStorage st !! key).

Definition localStorage_setItem (key value : string) : M unit :=
  modify (with_localStorage <[key := value]>).

Definition localStorage_removeItem (key : string) : M unit :=
  modify (with_localStorage (delete key)).

(** [api.defaults.headers.common[key] = value] *)
Definition defaults_headers_common_set (key value : string) : M unit :=
  modify (with_defaults_headers_common <[key := value]>).

(** [delete api.defaults.headers.common[key]] *)
Definition defaults_headers_common_delete (key : string) : M unit :=
  modify (with_defaults_headers_common (delete key)).

Definition setUser (v : JSON.value) : M unit := modify (with_user v).

Definition setLoading (b : bool) : M unit := modify (with_loading b).

(** [window.location.href = href] *)
Definition window_location_href_set (href : string) : M unit :=
  modify (with_location_href href).

Definition toast_success (text : string) : M unit :=
  modify (with_toast (toast_success_shown text)).

Definition toast_error (text : string) : M unit :=
  modify (with_toast (toast_error_shown text)).

(** [a || b] on strings *)
Definition or_else (a b : string) : string :=
  if JsString.truthy a then a else b.

(** [url?.includes(fragment)], falsy when [url] is undefined *)
Definition url_includes (url : option string) (fragment : string) : bool :=
  match url with
  | Some u => JsString.includes u fragment
  | None => false
  end.

(** ** The request gateway (api.ts) *)

(** The request interceptor: attaches the stored token, when there is one and
    it is not empty, as a bearer credential. *)
Definition request_interceptor (config : request_config) : M request_config :=
  token ← localStorage_getItem "token";
  match token with
  | Some token =>
      if JsString.truthy token
      then mret {| url := url config;
                   method := method config;
                   headers := <["Authorization" := "Bearer " +:+ token]>
                                (headers config) |}
      else mret config
  | None => mret config
  end.

(** The response interceptor, success handler. *)
Definition response_interceptor_fulfilled {A : Type} (r : A) : M A := mret r.

(** [error.code === 'ERR_NETWORK' || error.code === 'ECONNREFUSED'] *)
Definition is_network_error (error : axios_error) : bool :=
  bool_decide (code error = Some "ERR_NETWORK") ||
  bool_decide (code error = Some "ECONNREFUSED").

(** The response interceptor, error handler.  Returning a value is
    [Promise.resolve], throwing is [Promise.reject]; [after_fixtures] is the
    code that follows the block of fixture responses. *)
Definition response_interceptor_rejected (error : axios_error) : M response :=
  let after_fixtures : M response :=
    (if bool_decide (status <$> error_response error = Some 401) then
       localStorage_removeItem "token";;
       localStorage_removeItem "user";;
       window_location_href_set "/login"
     else mret ());;
    throw (AxiosError error) in
  if is_network_error error then
    match config error with
    | None =>
        throw (TypeError "Cannot read properties of undefined (reading 'url')")
    | Some cfg =>
        let url := url cfg in
        let method := JsString.toLowerCase <$> method cfg in
        let applications := MockData.applications MOCK_DATA in
        if url_includes url "/applications" && bool_decide (method = Some "get")
        then mret {| data := ApplicationList applications |}
        else if url_includes url "/resumes" && bool_decide (method = Some "get")
        then mret {| data := ResumeList (MockData.resumes MOCK_DATA) |}
        else if url_includes url "/reminders" && bool_decide (method = Some "get")
        then mret {| data := ReminderList (MockData.reminders MOCK_DATA) |}
        else if url_includes url "/dashboard/stats"
                && bool_decide (method = Some "get")
        then mret {| data := DashboardStats {|
          Stats.totalApplications := length applications;
          Stats.appliedCount :=
            length (filter (λ a, Application.status a = "applied") applications);
          Stats.interviewCount :=
            length (filter (λ a, Application.status a = "interview") applications);
          Stats.offerCount :=
            length (filter (λ a, Application.status a = "offer") applications);
          Stats.rejectedCount :=
            length (filter (λ a, Application.status a = "rejected") applications);
          Stats.recentApplications := take 5 applications;
          Stats.upcomingReminders := take 3 (MockData.reminders MOCK_DATA);
        |} |}
        else if url_includes url "/analytics" && bool_decide (method = Some "get")
        then mret {| data := AnalyticsBundle {|
          Analytics.statusDistribution := {|
            Chart.labels := ["Applied"; "Interview"; "Offer"; "Rejected"];
            Chart.data := [1; 1; 1; 0] |};
          Analytics.monthlyApplications := {|
            Chart.labels := ["Dec 2023"; "Jan 2024"];
            Chart.data := [2; 3] |};
          Analytics.topCompanies := {|
            Chart.labels := ["Google"; "Microsoft"; "Apple"];
            Chart.data := [1; 1; 1] |};
          Analytics.responseRate := 67;
          Analytics.averageResponseTime := 7;
          Analytics.totalApplications := 3;
          Analytics.successRate := 33;
        |} |}
        else after_fixtures
    end
  else after_fixtures.

(** The route fragments the error handler looks for in the URL, in the
    order it tests them. *)
Definition fixture_fragments : list string :=
  ["/applications"; "/resumes"; "/reminders"; "/dashboard/stats"; "/analytics"].

(** ** The session store (AuthContext.jsx) *)

Section SessionStore.
Context `{JsonRuntime}.

Definition JSON_parse_call (text : string) : M JSON.value :=
  match JSON_parse text with
  | inr v => mret v
  | inl msg => throw (SyntaxError msg)
  end.

(** The effect [AuthProvider] runs once when it mounts. *)
Definition restore : M unit :=
  token ← localStorage_getItem "token";
  userData ← localStorage_getItem "user";
  match token, userData with
  | Some token, Some userData =>
      if JsString.truthy token && JsString.truthy userData then
        try_catch
          (parsedUser ← JSON_parse_call userData;
           setUser parsedUser;;
           defaults_headers_common_set "Authorization" ("Bearer " +:+ token))
          (λ error,
             localStorage_removeItem "token";;
             localStorage_removeItem "user")
      else mret ()
  | _, _ => mret ()
  end;;
  setLoading false.

(** The public fields kept of a user record. *)
Definition userData_of (mockUser : MockUser.t) : JSON.value :=
  JSON.VObject [
    ("id", JSON.VString (MockUser.id mockUser));
    ("email", JSON.VString (MockUser.email mockUser));
    ("name", JSON.VString (MockUser.name mockUser));
    ("isVerified", JSON.VBool (MockUser.isVerified mockUser))
  ].

Definition login (email password : string) : M unit :=
  try_catch
    (users ← gets MOCK_USERS;
     match find (λ u, bool_decide (MockUser.email u = email) &&
                      bool_decide (MockUser.password u = password)) users with
     | None => throw (Error "Invalid email or password")
     | Some mockUser =>
         now ← gets Date_now;
         let token := "mock-jwt-token-" +:+ pretty now in
         let userData := userData_of mockUser in
         localStorage_setItem "token" token;;
         localStorage_setItem "user" (JSON_stringify userData);;
         defaults_headers_common_set "Authorization" ("Bearer " +:+ token);;
         setUser userData;;
         toast_success "Successfully logged in!"
     end)
    (λ error,
       toast_error (or_else (message error) "Login failed");;
       throw error).

Definition register (name email password : string) : M unit :=
  try_catch
    (users ← gets MOCK_USERS;
     match find (λ u, bool_decide (MockUser.email u = email)) users with
     | Some existingUser => throw (Error "User with this email already exists")
     | None =>
         let newUser := {|
           MockUser.id := pretty (length users + 1)%nat;
           MockUser.email := email;
           MockUser.password := password;
           MockUser.name := name;
           MockUser.isVerified := true |} in
         modify (with_MOCK_USERS (λ us, us ++ [newUser]));;
         toast_success
           "Registration successful! You can now log in with your credentials."
     end)
    (λ error,
       toast_error (or_else (message error) "Registration failed");;
       throw error).

Definition logout : M unit :=
  localStorage_removeItem "token";;
  localStorage_removeItem "user";;
  defaults_headers_common_delete "Authorization";;
  setUser JSON.VNull;;
  toast_success "Successfully logged out!".

End SessionStore.

(** ** The life of a page

    Between two loads of the page the state changes only through the
    operations above and the clock. *)
Inductive action : Type :=
| Restore
| Login (email password : string)
| Register (name email password : string)
| Logout
| ResponseFailed (error : axios_error)
| ClockAdvances (now : Z).

Definition with_Date_now (now : Z) (st : state) : state := {|
  localStorage := localStorage st;
  defaults_headers_common := defaults_headers_common st;
  user := user st;
  loading := loading st;
  MOCK_USERS := MOCK_USERS st;
  location_href := location_href st;
  Date_now := now;
  toasts := toasts st;
|}.

Section PageLife.
Context `{JsonRuntime}.

(** The state an operation leaves, whether it returned or threw. *)
Definition perform (a : action) (st : state) : state :=
  match a with
  | Restore => (restore st).2
  | Login email password => (login email password st).2
  | Register name email password => (register name email password st).2
  | Logout => (logout st).2
  | ResponseFailed error => (response_interceptor_rejected error st).2
  | ClockAdvances now => with_Date_now now st
  end.

Definition perform_all (actions : list action) (st : state) : state :=
  fold_left (λ st a, perform a st) actions st.

End PageLife.

(** What every user table met during the life of a page satisfies: no two
    records share an email, the ids are the decimal numbers 1, 2, ... in
    order, every record is verified, and the declared records come first. *)
Definition table_invariant (users : list MockUser.t) : Prop :=
  NoDup (MockUser.email <$> users) ∧
  MockUser.id <$> users = (λ i, pretty (S i)) <$> seq 0 (length users) ∧
  Forall (λ u, MockUser.isVerified u = true) users ∧
  MOCK_USERS_initial `prefix_of` users.

(** ** The pages that call the gateway

    A handler of a page reads and writes the page's own state variables,
    shows toasts, and awaits calls of the gateway.  It is modelled as a
    function from the page's state to a computation of its new state; the
    gateway calls it awaits ([api.delete(url)], [api.put(url, ...)]) are
    parameters, so that what is proved holds for any backend.  The answer of
    the browser's [confirm] dialog is a parameter too. *)

(** A gateway call when no backend is listening: the request passes the
    request interceptor, the transport fails with code ERR_NETWORK, and the
    error, which carries the request configuration, reaches the error
    handler of the response interceptor. *)
Definition offline_request (method url : string) : M response :=
  common ← gets defaults_headers_common;
  config ← request_interceptor
             {| url := Some url; method := Some method; headers := common |};
  response_interceptor_rejected {|
    code := Some "ERR_NETWORK";
    config := Some config;
    error_response := None;
    error_message := "Network Error" |}.

(** *** The Resumes page *)

Module ResumesPage.
Record t : Type := mk {
  resumes : list Resume.t;
  loading : bool;
  showModal : bool;
  editingResume : option Resume.t;
  uploading : bool;
}.
End ResumesPage.

(** [{ ...resume, isDefault: b }] *)
Definition with_isDefault (b : bool) (resume : Resume.t) : Resume.t := {|
  Resume.id := Resume.id resume;
  Resume.name := Resume.name resume;
  Resume.filename := Resume.filename resume;
  Resume.fileSize := Resume.fileSize resume;
  Resume.uploadDate := Resume.uploadDate resume;
  Resume.isDefault := b;
  Resume.tags := Resume.tags resume;
  Resume.usageCount := Resume.usageCount resume;
|}.

(** [setResumes(resumes)] *)
Definition setResumes (resumes : list Resume.t) (page : ResumesPage.t)
  : ResumesPage.t := {|
  ResumesPage.resumes := resumes;
  ResumesPage.loading := ResumesPage.loading page;
  ResumesPage.showModal := ResumesPage.showModal page;
  ResumesPage.editingResume := ResumesPage.editingResume page;
  ResumesPage.uploading := ResumesPage.uploading page;
|}.

Section ResumesPageHandlers.
Context {A : Type}.
Variables api_delete api_put : string → M A.

Definition handleDelete (confirmed : bool) (id : string) (page : ResumesPage.t)
  : M ResumesPage.t :=
  if negb confirmed then mret page
  else
    try_catch
      (api_delete ("/resumes/" +:+ id);;
       toast_success "Resume deleted successfully";;
       mret (setResumes
               (filter (λ resume, Resume.id resume ≠ id)
                  (ResumesPage.resumes page))
               page))
      (λ error, toast_error "Failed to delete resume";; mret page).

Definition handleSetDefault (id : string) (page : ResumesPage.t)
  : M ResumesPage.t :=
  try_catch
    (api_put ("/resumes/" +:+ id +:+ "/default");;
     toast_success "Default resume updated";;
     mret (setResumes
             ((λ resume,
                 with_isDefault (bool_decide (Resume.id resume = id)) resume)
                <$> ResumesPage.resumes page)
             page))
    (λ error, toast_error "Failed to set default resume";; mret page).

End ResumesPageHandlers.

(** *** The Applications page *)

Module ApplicationsPage.
(** The page's own [Application] interface: the fields marked [?] may be
    undefined. *)
Record Application : Type := mkApplication {
  id : string;
  company : string;
  position : string;
  status : string;
  appliedDate : string;
  salary : option Z;
  location : option string;
  jobUrl : option string;
  notes : option string;
  contactPerson : option string;
  contactEmail : option string;
  resumeId : option string;
  resumeName : option string;
}.

Record t : Type := mk {
  applications : list Application;
  loading : bool;
  searchTerm : string;
  statusFilter : string;
  showModal : bool;
  editingApplication : option Application;
}.
End ApplicationsPage.

(** [setApplications(applications)] *)
Definition setApplications (applications : list ApplicationsPage.Application)
    (page : ApplicationsPage.t) : ApplicationsPage.t := {|
  ApplicationsPage.applications := applications;
  ApplicationsPage.loading := ApplicationsPage.loading page;
  ApplicationsPage.searchTerm := ApplicationsPage.searchTerm page;
  ApplicationsPage.statusFilter := ApplicationsPage.statusFilter page;
  ApplicationsPage.showModal := ApplicationsPage.showModal page;
  ApplicationsPage.editingApplication :=
    ApplicationsPage.editingApplication page;
|}.

(** [setShowModal(b)] *)
Definition setShowModal (b : bool) (page : ApplicationsPage.t)
  : ApplicationsPage.t := {|
  ApplicationsPage.applications := ApplicationsPage.applications page;
  ApplicationsPage.loading := ApplicationsPage.loading page;
  ApplicationsPage.searchTerm := ApplicationsPage.searchTerm page;
  ApplicationsPage.statusFilter := ApplicationsPage.statusFilter page;
  ApplicationsPage.showModal := b;
  ApplicationsPage.editingApplication :=
    ApplicationsPage.editingApplication page;
|}.

Section ApplicationsPageHandlers.
Context {A : Type}.
Variable api_delete : string → M A.

Definition handleDeleteApplication (confirmed : bool) (id : string)
    (page : ApplicationsPage.t) : M ApplicationsPage.t :=
  if negb confirmed then mret page
  else
    try_catch
      (api_delete ("/applications/" +:+ id);;
       toast_success "Application deleted successfully";;
       mret (setApplications
               (filter (λ app, ApplicationsPage.id app ≠ id)
                  (ApplicationsPage.applications page))
               page))
      (λ error, toast_error "Failed to delete application";; mret page).

End ApplicationsPageHandlers.

Definition handleApplicationSaved (application : ApplicationsPage.Application)
    (page : ApplicationsPage.t) : ApplicationsPage.t :=
  setShowModal false
    (match ApplicationsPage.editingApplication page with
     | Some _ =>
         setApplications
           ((λ app,
               if bool_decide (ApplicationsPage.id app
                               = ApplicationsPage.id application)
               then application else app)
              <$> ApplicationsPage.applications page)
           page
     | None =>
         setApplications (application :: ApplicationsPage.applications page)
           page
     end).

Section ApplicationsSearch.
(** [String.prototype.toLowerCase], on every string the user can type. *)
Variable toLowerCase : string → string.

(** [field?.toLowerCase().includes(term)], falsy when the field is
    undefined. *)
Definition optional_includes (field : option string) (term : string) : bool :=
  match field with
  | Some text => JsString.includes (toLowerCase text) term
  | None => false
  end.

Definition filteredApplications (page : ApplicationsPage.t)
  : list ApplicationsPage.Application :=
  let searchTerm := ApplicationsPage.searchTerm page in
  let statusFilter := ApplicationsPage.statusFilter page in
  filter
    (λ app,
       let matchesSearch :=
         JsString.includes (toLowerCase (ApplicationsPage.company app))
           (toLowerCase searchTerm) ||
         JsString.includes (toLowerCase (ApplicationsPage.position app))
           (toLowerCase searchTerm) ||
         optional_includes (ApplicationsPage.location app)
           (toLowerCase searchTerm) ||
         optional_includes (ApplicationsPage.notes app)
           (toLowerCase searchTerm) in
       let matchesStatus :=
         bool_decide (statusFilter = "all") ||
         bool_decide (toLowerCase (ApplicationsPage.status app)
                      = toLowerCase statusFilter) in
       matchesSearch && matchesStatus = true)
    (ApplicationsPage.applications page).

End ApplicationsSearch.

(** *** The Login and Register forms *)

Module LoginPage.
Record t : Type := mk { loading : bool }.
End LoginPage.

Module RegisterPage.
Record t : Type := mk { loading : bool }.
End RegisterPage.

Section Forms.
Context `{JsonRuntime}.

(** [onSubmit] of the Login page, from the page's state after
    [setLoading(true)] to its state at the end: the error [login] throws is
    dropped by the empty [catch], and [finally] clears [loading]. *)
Definition Login_onSubmit (email password : string) (page : LoginPage.t)
  : M LoginPage.t :=
  try_catch (login email password) (λ error, mret ());;
  mret {| LoginPage.loading := false |}.

(** [onSubmit] of the Register page, likewise. *)
Definition Register_onSubmit (name email password : string)
    (page : RegisterPage.t) : M RegisterPage.t :=
  try_catch (register name email password) (λ error, mret ());;
  mret {| RegisterPage.loading := false |}.

End Forms.

(** *** The Reminders page *)

Module RemindersPage.
(** The page's own [Reminder] interface: the fields marked [?] may be
    undefined. *)
Record Reminder : Type := mkReminder {
  id : string;
  title : string;
  description : option string;
  date : string;
  time : string;
  type : string;
  applicationId : option string;
  applicationTitle : option string;
  isCompleted : bool;
  notificationSent : bool;
}.

Record t : Type := mk {
  reminders : list Reminder;
  loading : bool;
  showModal : bool;
  editingReminder : option Reminder;
}.
End RemindersPage.

(** [{ ...reminder, isCompleted: b }] *)
Definition with_isCompleted (b : bool) (reminder : RemindersPage.Reminder)
  : RemindersPage.Reminder := {|
  RemindersPage.id := RemindersPage.id reminder;
  RemindersPage.title := RemindersPage.title reminder;
  RemindersPage.description := RemindersPage.description reminder;
  RemindersPage.date := RemindersPage.date reminder;
  RemindersPage.time := RemindersPage.time reminder;
  RemindersPage.type := RemindersPage.type reminder;
  RemindersPage.applicationId := RemindersPage.applicationId reminder;
  RemindersPage.applicationTitle := RemindersPage.applicationTitle reminder;
  RemindersPage.isCompleted := b;
  RemindersPage.notificationSent := RemindersPage.notificationSent reminder;
|}.

(** [setReminders(reminders)] *)
Definition setReminders (reminders : list RemindersPage.Reminder)
    (page : RemindersPage.t) : RemindersPage.t := {|
  RemindersPage.reminders := reminders;
  RemindersPage.loading := RemindersPage.loading page;
  RemindersPage.showModal := RemindersPage.showModal page;
  RemindersPage.editingReminder := RemindersPage.editingReminder page;
|}.

Section RemindersPageHandlers.
Context {A : Type}.
Variable api_put : string → M A.

Definition handleToggleComplete (id : string) (isCompleted : bool)
    (page : RemindersPage.t) : M RemindersPage.t :=
  try_catch
    (api_put ("/reminders/" +:+ id +:+ "/complete");;
     toast_success
       ("Reminder marked as " +:+
        (if negb isCompleted then "completed" else "pending"));;
     mret (setReminders
             ((λ reminder,
                 if bool_decide (RemindersPage.id reminder = id)
                 then with_isCompleted (negb isCompleted) reminder
                 else reminder)
                <$> RemindersPage.reminders page)
             page))
    (λ error, toast_error "Failed to update reminder";; mret page).

End RemindersPageHandlers.

(** * Properties *)

(** Unfolds a computation down to the state it builds. *)
Ltac run :=
  unfold try_catch, localStorage_getItem, localStorage_setItem,
    localStorage_removeItem, defaults_headers_common_set,
    defaults_headers_common_delete, setUser, setLoading,
    window_location_href_set, toast_success, toast_error, gets, modify, throw,
    mbind, M_bind, mret, M_ret;
  simpl.

(** ** Looking a user up *)

Lemma find_credentials_Some (email password : string) (users : list MockUser.t)
    (u : MockUser.t) :
  find (λ u, bool_decide (MockUser.email u = email) &&
             bool_decide (MockUser.password u = password)) users = Some u →
  u ∈ users ∧ MockUser.email u = email ∧ MockUser.password u = password.
Proof.
  intros Hfind. apply find_some in Hfind as [Hin Htest].
  apply andb_prop in Htest as [He Hp].
  apply bool_decide_eq_true in He, Hp.
  by rewrite list_elem_of_In.
Qed.

Lemma find_credentials_None (email password : string) (users : list MockUser.t) :
  (∀ u, u ∈ users →
        ¬ (MockUser.email u = email ∧ MockUser.password u = password)) →
  find (λ u, bool_decide (MockUser.email u = email) &&
             bool_decide (MockUser.password u = password)) users = None.
Proof.
  intros Hnone.
  destruct (find _ users) as [u|] eqn:Hfind; [|done].
  apply find_credentials_Some in Hfind as (Hin & He & Hp).
  by destruct (Hnone u Hin).
Qed.

Lemma find_credentials_found (email password : string) (users : list MockUser.t) :
  (∃ u, u ∈ users ∧ MockUser.email u = email ∧ MockUser.password u = password) →
  is_Some (find (λ u, bool_decide (MockUser.email u = email) &&
                      bool_decide (MockUser.password u = password)) users).
Proof.
  intros (u & Hin & He & Hp).
  destruct (find _ users) as [v|] eqn:Hfind; [by eexists|].
  apply list_elem_of_In in Hin.
  pose proof (find_none _ _ Hfind u Hin) as Htest. simpl in Htest.
  rewrite !bool_decide_eq_true_2 in Htest by done. done.
Qed.

Lemma find_email_Some (email : string) (users : list MockUser.t) (u : MockUser.t) :
  find (λ u, bool_decide (MockUser.email u = email)) users = Some u →
  u ∈ users ∧ MockUser.email u = email.
Proof.
  intros Hfind. apply find_some in Hfind as [Hin Htest].
  apply bool_decide_eq_true in Htest. by rewrite list_elem_of_In.
Qed.

Lemma find_email_None (email : string) (users : list MockUser.t) :
  find (λ u, bool_decide (MockUser.email u = email)) users = None →
  ∀ u, u ∈ users → MockUser.email u ≠ email.
Proof.
  intros Hfind u Hin%list_elem_of_In.
  pose proof (find_none _ _ Hfind u Hin) as Htest. simpl in Htest.
  by apply bool_decide_eq_false in Htest.
Qed.

(** ** logout *)

(** C7.  Whatever the state before, [logout] returns normally and leaves no
    token and no user value in storage, no default Authorization header on
    the gateway, and a null (unauthenticated) current user. *)
Theorem logout_clears_session (st : state) :
  (logout st).1 = inr () ∧
  localStorage (logout st).2 !! "token" = None ∧
  localStorage (logout st).2 !! "user" = None ∧
  defaults_headers_common (logout st).2 !! "Authorization" = None ∧
  user (logout st).2 = JSON.VNull ∧
  authenticated (logout st).2 = false.
Proof.
  unfold logout. run.
  repeat split; try done.
  - rewrite lookup_delete_ne by done. apply lookup_delete_eq.
  - apply lookup_delete_eq.
  - apply lookup_delete_eq.
Qed.

(** ** login *)

Section LoginFacts.
Context `{JsonRuntime}.

(** What a failed look-up does: the error toast is shown, nothing else
    changes, and the error is thrown again. *)
Lemma login_not_found (email password : string) (st : state) :
  find (λ u, bool_decide (MockUser.email u = email) &&
             bool_decide (MockUser.password u = password)) (MOCK_USERS st) = None →
  login email password st =
    (inl (Error "Invalid email or password"),
     with_toast (toast_error_shown "Invalid email or password") st).
Proof. intros Hfind. unfold login. run. by rewrite Hfind. Qed.

(** C5.  When no record of the user table has both the given email and the
    given password, [login] throws the invalid-credentials error and the
    session state is what it was: storage (so the persisted token and user),
    the gateway's default headers and the current user are unchanged, as is
    the user table. *)
Theorem login_unknown_pair_fails (email password : string) (st : state) :
  (∀ u, u ∈ MOCK_USERS st →
        ¬ (MockUser.email u = email ∧ MockUser.password u = password)) →
  (login email password st).1 = inl (Error "Invalid email or password") ∧
  localStorage (login email password st).2 = localStorage st ∧
  defaults_headers_common (login email password st).2
    = defaults_headers_common st ∧
  user (login email password st).2 = user st ∧
  MOCK_USERS (login email password st).2 = MOCK_USERS st.
Proof.
  intros Hnone%find_credentials_None.
  by rewrite login_not_found.
Qed.

(** C4.  When some record of the user table has the given email and the
    given password, [login] returns normally; it takes the first such
    record, stores the token [mock-jwt-token-<Date.now()>] (never empty)
    under [token] and, under [user], the JSON text of the object made of the
    record's public fields, which are its id, email, name and isVerified and
    nothing else (the password is not among them); it sets the gateway's
    default Authorization header to [Bearer <token>], and makes that object
    the current user, whose email is the given one. *)
Theorem login_matching_pair_succeeds (email password : string) (st : state) :
  (∃ u, u ∈ MOCK_USERS st ∧
        MockUser.email u = email ∧ MockUser.password u = password) →
  ∃ mockUser token,
    let publicFields :=
      JSON.VObject [
        ("id", JSON.VString (MockUser.id mockUser));
        ("email", JSON.VString (MockUser.email mockUser));
        ("name", JSON.VString (MockUser.name mockUser));
        ("isVerified", JSON.VBool (MockUser.isVerified mockUser))
      ] in
    mockUser ∈ MOCK_USERS st ∧
    MockUser.email mockUser = email ∧
    MockUser.password mockUser = password ∧
    token = "mock-jwt-token-" +:+ pretty (Date_now st) ∧
    token ≠ "" ∧
    (login email password st).1 = inr () ∧
    localStorage (login email password st).2 !! "token" = Some token ∧
    localStorage (login email password st).2 !! "user"
      = Some (JSON_stringify publicFields) ∧
    defaults_headers_common (login email password st).2 !! "Authorization"
      = Some ("Bearer " +:+ token) ∧
    user (login email password st).2 = publicFields ∧
    JSON.get "id" (user (login email password st).2)
      = Some (JSON.VString (MockUser.id mockUser)) ∧
    JSON.get "email" (user (login email password st).2)
      = Some (JSON.VString email) ∧
    JSON.get "name" (user (login email password st).2)
      = Some (JSON.VString (MockUser.name mockUser)) ∧
    JSON.get "isVerified" (user (login email password st).2)
      = Some (JSON.VBool (MockUser.isVerified mockUser)) ∧
    JSON.get "password" (user (login email password st).2) = None ∧
    authenticated (login email password st).2 = true.
Proof.
  intros [mockUser Hfind]%find_credentials_found.
  destruct (find_credentials_Some _ _ _ _ Hfind) as (Hin & He & Hp).
  exists mockUser, ("mock-jwt-token-" +:+ pretty (Date_now st)).
  unfold login. run. rewrite Hfind. unfold userData_of. simpl.
  repeat split; try done.
  - rewrite lookup_insert_ne by done. apply lookup_insert_eq.
  - apply lookup_insert_eq.
  - apply lookup_insert_eq.
  - by rewrite He.
Qed.

(** C10.  Two failing calls of [login] on the same state, one with a
    registered email and a password that matches no record with it, the other
    with an email no record has, cannot be told apart: both throw the error
    with message [Invalid email or password] and both end in the same
    state. *)
Theorem login_failure_hides_registration
    (email1 password1 email2 password2 : string) (st : state) :
  (∃ u, u ∈ MOCK_USERS st ∧ MockUser.email u = email1) →
  (∀ u, u ∈ MOCK_USERS st →
        ¬ (MockUser.email u = email1 ∧ MockUser.password u = password1)) →
  (∀ u, u ∈ MOCK_USERS st → MockUser.email u ≠ email2) →
  (login email1 password1 st).1 = inl (Error "Invalid email or password") ∧
  (login email2 password2 st).1 = inl (Error "Invalid email or password") ∧
  (login email1 password1 st).2 = (login email2 password2 st).2.
Proof.
  intros _ Hwrong%find_credentials_None Habsent.
  rewrite !login_not_found; [done| |done].
  apply find_credentials_None. intros u Hin [He _]. by apply (Habsent u).
Qed.

End LoginFacts.

Lemma login_unknown_pair_fails_witness :
  let st := page_load ∅ "/login" 1700000000000 in
  let login := @login reference_runtime "nobody@example.com" "password123" in
  (login st).1 = inl (Error "Invalid email or password") ∧
  localStorage (login st).2 = localStorage st ∧
  defaults_headers_common (login st).2 = defaults_headers_common st ∧
  user (login st).2 = user st ∧
  MOCK_USERS (login st).2 = MOCK_USERS st.
Proof.
  apply (@login_unknown_pair_fails reference_runtime).
  intros u Hin [He Hp]. simpl in Hin.
  repeat (apply elem_of_cons in Hin as [->|Hin]; [discriminate He|]).
  by apply elem_of_nil in Hin.
Defined.

Lemma login_matching_pair_succeeds_witness :
  let st := page_load ∅ "/login" 1700000000000 in
  let login := @login reference_runtime "demo@jobtracker.com" "password123" in
  ∃ mockUser token,
    let publicFields :=
      JSON.VObject [
        ("id", JSON.VString (MockUser.id mockUser));
        ("email", JSON.VString (MockUser.email mockUser));
        ("name", JSON.VString (MockUser.name mockUser));
        ("isVerified", JSON.VBool (MockUser.isVerified mockUser))
      ] in
    mockUser ∈ MOCK_USERS st ∧
    MockUser.email mockUser = "demo@jobtracker.com" ∧
    MockUser.password mockUser = "password123" ∧
    token = "mock-jwt-token-" +:+ pretty (Date_now st) ∧
    token ≠ "" ∧
    (login st).1 = inr () ∧
    localStorage (login st).2 !! "token" = Some token ∧
    localStorage (login st).2 !! "user"
      = Some (JSON.stringify publicFields) ∧
    defaults_headers_common (login st).2 !! "Authorization"
      = Some ("Bearer " +:+ token) ∧
    user (login st).2 = publicFields ∧
    JSON.get "id" (user (login st).2)
      = Some (JSON.VString (MockUser.id mockUser)) ∧
    JSON.get "email" (user (login st).2)
      = Some (JSON.VString "demo@jobtracker.com") ∧
    JSON.get "name" (user (login st).2)
      = Some (JSON.VString (MockUser.name mockUser)) ∧
    JSON.get "isVerified" (user (login st).2)
      = Some (JSON.VBool (MockUser.isVerified mockUser)) ∧
    JSON.get "password" (user (login st).2) = None ∧
    authenticated (login st).2 = true.
Proof.
  apply (@login_matching_pair_succeeds reference_runtime).
  eexists. split; [apply list_elem_of_here|]. simpl. by split.
Defined.

Lemma login_failure_hides_registration_witness :
  let st := page_load ∅ "/login" 1700000000000 in
  let known := @login reference_runtime "demo@jobtracker.com" "letmein" in
  let unknown := @login reference_runtime "nobody@example.com" "letmein" in
  (known st).1 = inl (Error "Invalid email or password") ∧
  (unknown st).1 = inl (Error "Invalid email or password") ∧
  (known st).2 = (unknown st).2.
Proof.
  apply (@login_failure_hides_registration reference_runtime).
  - eexists. split; [apply list_elem_of_here|]. reflexivity.
  - intros u Hin [He Hp]. simpl in Hin.
    repeat (apply elem_of_cons in Hin as [->|Hin]; [discriminate Hp|]).
    by apply elem_of_nil in Hin.
  - intros u Hin He. simpl in Hin.
    repeat (apply elem_of_cons in Hin as [->|Hin]; [discriminate He|]).
    by apply elem_of_nil in Hin.
Defined.

(** ** register *)

(** C6.  [register] never touches the session: storage, the gateway's
    default headers and the current user are unchanged.  When a record of the
    user table already has the email, it throws and the table is unchanged;
    when none has, it returns normally and the table is the old one followed
    by exactly one new record, verified, with the given name, email and
    password, so its length grows by one. *)
Theorem register_table_and_session (name email password : string) (st : state) :
  let st' := (register name email password st).2 in
  (localStorage st' = localStorage st ∧
   defaults_headers_common st' = defaults_headers_common st ∧
   user st' = user st) ∧
  ((∃ u, u ∈ MOCK_USERS st ∧ MockUser.email u = email) →
   (register name email password st).1
     = inl (Error "User with this email already exists") ∧
   MOCK_USERS st' = MOCK_USERS st ∧
   length (MOCK_USERS st') = length (MOCK_USERS st)) ∧
  ((∀ u, u ∈ MOCK_USERS st → MockUser.email u ≠ email) →
   (register name email password st).1 = inr () ∧
   (∃ newUser,
      MOCK_USERS st' = MOCK_USERS st ++ [newUser] ∧
      MockUser.email newUser = email ∧
      MockUser.password newUser = password ∧
      MockUser.name newUser = name ∧
      MockUser.isVerified newUser = true) ∧
   length (MOCK_USERS st') = S (length (MOCK_USERS st))).
Proof.
  unfold register. run.
  destruct (find _ (MOCK_USERS st)) as [existingUser|] eqn:Hfind; simpl.
  - apply find_email_Some in Hfind as [Hin He].
    split; [done|]. split; [done|].
    intros Habsent. by destruct (Habsent existingUser Hin).
  - pose proof (find_email_None _ _ Hfind) as Habsent.
    split; [done|]. split.
    + intros (u & Hin & He). by destruct (Habsent u Hin).
    + intros _. split; [done|]. split; [by eexists|].
      rewrite length_app. simpl. lia.
Qed.

Lemma register_table_and_session_witness :
  let st := page_load ∅ "/register" 1700000000000 in
  let taken := register "Someone" "test@test.com" "secret" st in
  let novel := register "Ada" "ada@example.com" "secret" st in
  (taken.1 = inl (Error "User with this email already exists") ∧
   MOCK_USERS taken.2 = MOCK_USERS st ∧
   length (MOCK_USERS taken.2) = length (MOCK_USERS st)) ∧
  (novel.1 = inr () ∧
   (∃ newUser,
      MOCK_USERS novel.2 = MOCK_USERS st ++ [newUser] ∧
      MockUser.email newUser = "ada@example.com" ∧
      MockUser.password newUser = "secret" ∧
      MockUser.name newUser = "Ada" ∧
      MockUser.isVerified newUser = true) ∧
   length (MOCK_USERS novel.2) = S (length (MOCK_USERS st))).
Proof.
  split.
  - apply (register_table_and_session "Someone" "test@test.com" "secret").
    eexists. split; [do 2 apply list_elem_of_further; apply list_elem_of_here|].
    reflexivity.
  - apply (register_table_and_session "Ada" "ada@example.com" "secret").
    intros u Hin He. simpl in Hin.
    repeat (apply elem_of_cons in Hin as [->|Hin]; [discriminate He|]).
    by apply elem_of_nil in Hin.
Defined.

(** ** The request interceptor *)

Lemma truthy_nonempty (s : string) : s ≠ "" → JsString.truthy s = true.
Proof. by destruct s. Qed.

Lemma request_interceptor_attaches (config : request_config) (st : state)
    (token : string) :
  localStorage st !! "token" = Some token →
  token ≠ "" →
  request_interceptor config st =
    (inr {| url := url config;
            method := method config;
            headers := <["Authorization" := "Bearer " +:+ token]> (headers config) |},
     st).
Proof.
  intros Htoken Hne. unfold request_interceptor. run.
  by rewrite Htoken, truthy_nonempty.
Qed.

(** ** restore *)

Section RestoreFacts.
Context `{JsonRuntime}.

(** When the guard [token && userData] is false, the effect only clears
    [loading]. *)
Lemma restore_guard_false (st : state) :
  (match localStorage st !! "token", localStorage st !! "user" with
   | Some token, Some userData =>
       JsString.truthy token && JsString.truthy userData
   | _, _ => false
   end) = false →
  restore st = (inr (), with_loading false st).
Proof.
  intros Hguard. unfold restore. run.
  destruct (localStorage st !! "token") as [token|]; [|done].
  destruct (localStorage st !! "user") as [userData|]; [|done].
  by rewrite Hguard.
Qed.

(** When the guard holds and [JSON.parse] throws, the handler removes both
    values. *)
Lemma restore_parse_throws (st : state) (token userData msg : string) :
  localStorage st !! "token" = Some token →
  localStorage st !! "user" = Some userData →
  token ≠ "" →
  userData ≠ "" →
  JSON_parse userData = inl msg →
  restore st =
    (inr (),
     with_loading false
       (with_localStorage (delete "user")
          (with_localStorage (delete "token") st))).
Proof.
  intros Htoken Huser Ht Hu Hparse. unfold restore, JSON_parse_call. run.
  rewrite Htoken, Huser, !truthy_nonempty by done. simpl.
  by rewrite Hparse.
Qed.

(** C8, as the code has it.  At start-up, when storage holds a non-empty
    token and a non-empty user value on which [JSON.parse] throws, [restore]
    returns normally (nothing is thrown to the caller), both values are
    removed from storage, and the session is unauthenticated: the current
    user is null and the gateway has no default Authorization header. *)
Theorem restore_malformed_user (storage : gmap string string) (href : string)
    (now : Z) (token userData msg : string) :
  storage !! "token" = Some token →
  storage !! "user" = Some userData →
  token ≠ "" →
  userData ≠ "" →
  JSON_parse userData = inl msg →
  let st' := (restore (page_load storage href now)).2 in
  (restore (page_load storage href now)).1 = inr () ∧
  localStorage st' !! "token" = None ∧
  localStorage st' !! "user" = None ∧
  user st' = JSON.VNull ∧
  authenticated st' = false ∧
  defaults_headers_common st' !! "Authorization" = None.
Proof.
  intros Htoken Huser Ht Hu Hparse.
  rewrite (restore_parse_throws _ token userData msg) by done. simpl.
  repeat split; try done.
  - rewrite lookup_delete_ne by done. apply lookup_delete_eq.
  - apply lookup_delete_eq.
Qed.

(** C9, as the code has it.  At start-up, when storage holds exactly one of
    the two values, [restore] returns normally, storage is unchanged and the
    session is unauthenticated; and when the value held is a token that is
    not the empty string, the request interceptor run after [restore] puts
    [Bearer <token>] in the Authorization header of every request and
    leaves the state as it is. *)
Theorem restore_partial_storage (storage : gmap string string) (href : string)
    (now : Z) :
  (is_Some (storage !! "token") ∧ storage !! "user" = None) ∨
  (storage !! "token" = None ∧ is_Some (storage !! "user")) →
  let st' := (restore (page_load storage href now)).2 in
  (restore (page_load storage href now)).1 = inr () ∧
  localStorage st' = storage ∧
  user st' = JSON.VNull ∧
  authenticated st' = false ∧
  defaults_headers_common st' !! "Authorization" = None ∧
  (∀ token config,
     storage !! "token" = Some token →
     token ≠ "" →
     request_interceptor config st' =
       (inr {| url := url config;
               method := method config;
               headers := <["Authorization" := "Bearer " +:+ token]>
                            (headers config) |},
        st')).
Proof.
  intros Hone.
  rewrite restore_guard_false.
  - simpl. repeat split; try done.
    intros token config Htoken Hne.
    by apply request_interceptor_attaches.
  - simpl. destruct Hone as [[_ ->]|[-> _]]; [|done].
    by destruct (storage !! "token").
Qed.

End RestoreFacts.

Lemma restore_malformed_user_witness :
  let storage : gmap string string :=
    {[ "token" := "mock-jwt-token-1700000000000"; "user" := "{" ]} in
  let st' := (@restore reference_runtime (page_load storage "/" 0)).2 in
  (@restore reference_runtime (page_load storage "/" 0)).1 = inr () ∧
  localStorage st' !! "token" = None ∧
  localStorage st' !! "user" = None ∧
  user st' = JSON.VNull ∧
  authenticated st' = false ∧
  defaults_headers_common st' !! "Authorization" = None.
Proof.
  apply (@restore_malformed_user reference_runtime _ _ _
           "mock-jwt-token-1700000000000" "{" "Unexpected token in JSON");
    by vm_compute.
Defined.

(** The empty string is not a JSON text, yet a stored empty user value is
    falsy, so [restore] does not reach [JSON.parse] and removes nothing. *)
Lemma restore_keeps_empty_user_value :
  let storage : gmap string string :=
    {[ "token" := "mock-jwt-token-1700000000000"; "user" := "" ]} in
  let st' := (@restore reference_runtime (page_load storage "/" 0)).2 in
  @JSON_parse reference_runtime "" = inl "Unexpected token in JSON" ∧
  storage !! "token" = Some "mock-jwt-token-1700000000000" ∧
  storage !! "user" = Some "" ∧
  localStorage st' !! "token" = Some "mock-jwt-token-1700000000000" ∧
  localStorage st' !! "user" = Some "".
Proof. by vm_compute. Qed.

Lemma restore_partial_storage_witness :
  let storage : gmap string string :=
    {[ "token" := "mock-jwt-token-1700000000000" ]} in
  let st' := (@restore reference_runtime (page_load storage "/" 0)).2 in
  (@restore reference_runtime (page_load storage "/" 0)).1 = inr () ∧
  localStorage st' = storage ∧
  user st' = JSON.VNull ∧
  authenticated st' = false ∧
  defaults_headers_common st' !! "Authorization" = None ∧
  (∀ token config,
     storage !! "token" = Some token →
     token ≠ "" →
     request_interceptor config st' =
       (inr {| url := url config;
               method := method config;
               headers := <["Authorization" := "Bearer " +:+ token]>
                            (headers config) |},
        st')).
Proof.
  apply (@restore_partial_storage reference_runtime).
  left. split; [by eexists | by vm_compute].
Defined.

(** A stored token that is the empty string is the only stored value, and
    the request interceptor attaches nothing. *)
Lemma restore_empty_token_not_attached :
  let storage : gmap string string := {[ "token" := "" ]} in
  let st' := (@restore reference_runtime (page_load storage "/" 0)).2 in
  let config := {| url := Some "/applications"; method := Some "get";
                   headers := ∅ |} in
  storage !! "token" = Some "" ∧
  storage !! "user" = None ∧
  localStorage st' = storage ∧
  (request_interceptor config st').1 = inr config ∧
  headers config !! "Authorization" = None.
Proof. by vm_compute. Qed.

(** ** The response interceptor *)

Lemma is_network_error_codes (error : axios_error) :
  code error = Some "ERR_NETWORK" ∨ code error = Some "ECONNREFUSED" →
  is_network_error error = true.
Proof.
  unfold is_network_error. intros [Hcode|Hcode]; rewrite Hcode; by vm_compute.
Qed.

(** C2.  On a connection-level failure (code ERR_NETWORK or ECONNREFUSED) of
    a GET request, the error handler resolves, without touching the state:
    for the URL [/applications] with the fixture array of applications, which
    has 3 records; for the URL [/dashboard/stats] with statistics whose counts
    are the lengths of the fixture array and of its sub-arrays filtered by
    status: 3 in total, 1 applied, 1 interview, 1 offer, 0 rejected. *)
Theorem fixtures_on_connection_failure (error : axios_error)
    (cfg : request_config) (m : string) (st : state) :
  code error = Some "ERR_NETWORK" ∨ code error = Some "ECONNREFUSED" →
  config error = Some cfg →
  method cfg = Some m →
  JsString.toLowerCase m = "get" →
  let applications := MockData.applications MOCK_DATA in
  (url cfg = Some "/applications" →
   response_interceptor_rejected error st
     = (inr {| data := ApplicationList applications |}, st) ∧
   length applications = 3%nat) ∧
  (url cfg = Some "/dashboard/stats" →
   ∃ s,
     response_interceptor_rejected error st
       = (inr {| data := DashboardStats s |}, st) ∧
     (Stats.totalApplications s = 3 ∧
      Stats.appliedCount s = 1 ∧
      Stats.interviewCount s = 1 ∧
      Stats.offerCount s = 1 ∧
      Stats.rejectedCount s = 0)%nat ∧
     Stats.totalApplications s = length applications ∧
     Stats.appliedCount s
       = length (filter (λ a, Application.status a = "applied") applications) ∧
     Stats.interviewCount s
       = length (filter (λ a, Application.status a = "interview") applications) ∧
     Stats.offerCount s
       = length (filter (λ a, Application.status a = "offer") applications) ∧
     Stats.rejectedCount s
       = length (filter (λ a, Application.status a = "rejected") applications)).
Proof.
  intros Hcode%is_network_error_codes Hcfg Hm Hget.
  unfold response_interceptor_rejected.
  rewrite Hcode, Hcfg, Hm. simpl. rewrite Hget.
  split; intros ->.
  - done.
  - eexists. split; [reflexivity|]. by vm_compute.
Qed.

Lemma fixtures_on_connection_failure_witness :
  let st := page_load ∅ "/dashboard" 1700000000000 in
  let failed (u : string) := {|
    code := Some "ERR_NETWORK";
    config := Some {| url := Some u; method := Some "get"; headers := ∅ |};
    error_response := None;
    error_message := "Network Error" |} in
  (response_interceptor_rejected (failed "/applications") st
     = (inr {| data := ApplicationList (MockData.applications MOCK_DATA) |}, st) ∧
   length (MockData.applications MOCK_DATA) = 3%nat) ∧
  (∃ s,
     response_interceptor_rejected (failed "/dashboard/stats") st
       = (inr {| data := DashboardStats s |}, st) ∧
     (Stats.totalApplications s = 3 ∧
      Stats.appliedCount s = 1 ∧
      Stats.interviewCount s = 1 ∧
      Stats.offerCount s = 1 ∧
      Stats.rejectedCount s = 0)%nat).
Proof.
  intros st failed. split.
  - edestruct (fixtures_on_connection_failure (failed "/applications"))
      as [Happlications _];
      [left; reflexivity | reflexivity | reflexivity | reflexivity |].
    exact (Happlications eq_refl).
  - edestruct (fixtures_on_connection_failure (failed "/dashboard/stats"))
      as [_ Hstats];
      [left; reflexivity | reflexivity | reflexivity | reflexivity |].
    destruct (Hstats eq_refl) as (s & Hres & Hcounts & _).
    exists s. split; [exact Hres | exact Hcounts].
Defined.

(** The code after the block of fixture responses: a 401 clears storage and
    navigates, and the error is always thrown on. *)
Lemma after_fixtures_throws (error : axios_error) (st : state) :
  ∃ st',
    ((if bool_decide (status <$> error_response error = Some 401) then
        localStorage_removeItem "token";;
        localStorage_removeItem "user";;
        window_location_href_set "/login"
      else mret ());;
     throw (AxiosError error) : M response) st
    = (inl (AxiosError error), st').
Proof. run. case_bool_decide; by eexists. Qed.

(** With a lowered method [get], the handler resolves as soon as the URL
    contains one of the fragments. *)
Lemma fixture_when_fragment_matches (error : axios_error) (cfg : request_config)
    (st : state) (fragment : string) :
  is_network_error error = true →
  config error = Some cfg →
  JsString.toLowerCase <$> method cfg = Some "get" →
  fragment ∈ fixture_fragments →
  url_includes (url cfg) fragment = true →
  ∃ r, response_interceptor_rejected error st = (inr r, st).
Proof.
  intros Hnet Hcfg Hget Hin Hinc.
  unfold response_interceptor_rejected. rewrite Hnet, Hcfg, Hget. simpl.
  unfold fixture_fragments in Hin.
  repeat (apply elem_of_cons in Hin as [->|Hin];
          [rewrite ?Hinc; simpl; repeat case_match; by eexists|]).
  by apply elem_of_nil in Hin.
Qed.

(** C3, as the code has it.  On a connection-level failure of a request, the
    error handler resolves with a fixture exactly when the method, in lower
    case, is [get] and the URL contains one of the five fragments
    [/applications], [/resumes], [/reminders], [/dashboard/stats],
    [/analytics] as a substring; in every other case (another method, no
    method, no URL, a URL containing none of the fragments) it substitutes
    nothing and rejects with the error it received. *)
Theorem fixture_exactly_on_fragment_match (error : axios_error)
    (cfg : request_config) (st : state) :
  code error = Some "ERR_NETWORK" ∨ code error = Some "ECONNREFUSED" →
  config error = Some cfg →
  let matched :=
    JsString.toLowerCase <$> method cfg = Some "get" ∧
    ∃ fragment, fragment ∈ fixture_fragments ∧
                url_includes (url cfg) fragment = true in
  (matched → ∃ r, response_interceptor_rejected error st = (inr r, st)) ∧
  (¬ matched →
   (response_interceptor_rejected error st).1 = inl (AxiosError error)).
Proof.
  intros Hnet%is_network_error_codes Hcfg matched. split.
  - intros (Hget & fragment & Hin & Hinc).
    by apply (fixture_when_fragment_matches _ cfg _ fragment).
  - intros Hnot.
    assert (∀ fragment, fragment ∈ fixture_fragments →
              url_includes (url cfg) fragment
              && bool_decide (JsString.toLowerCase <$> method cfg = Some "get")
              = false) as Hnone.
    { intros fragment Hin.
      destruct (url_includes (url cfg) fragment) eqn:Hinc; [|done].
      case_bool_decide as Hget; [|done].
      destruct Hnot. split; [done|]. by exists fragment. }
    unfold response_interceptor_rejected. rewrite Hnet, Hcfg. simpl.
    rewrite !Hnone by (unfold fixture_fragments; set_solver).
    by destruct (after_fixtures_throws error st) as [st' ->].
Qed.

Lemma fixture_exactly_on_fragment_match_witness :
  let st := page_load ∅ "/applications" 1700000000000 in
  let failed (m u : string) := {|
    code := Some "ECONNREFUSED";
    config := Some {| url := Some u; method := Some m; headers := ∅ |};
    error_response := None;
    error_message := "Network Error" |} in
  (∃ r, response_interceptor_rejected (failed "get" "/reminders") st = (inr r, st)) ∧
  (response_interceptor_rejected (failed "delete" "/reminders/2") st).1
    = inl (AxiosError (failed "delete" "/reminders/2")) ∧
  (response_interceptor_rejected (failed "get" "/auth/profile") st).1
    = inl (AxiosError (failed "get" "/auth/profile")).
Proof.
  intros st failed. split; [|split].
  - edestruct (fixture_exactly_on_fragment_match (failed "get" "/reminders"))
      as [Hmatched _]; [right; reflexivity | reflexivity |].
    apply Hmatched. split; [reflexivity|].
    exists "/reminders". split; [|reflexivity].
    unfold fixture_fragments; set_solver.
  - edestruct (fixture_exactly_on_fragment_match (failed "delete" "/reminders/2"))
      as [_ Hother]; [right; reflexivity | reflexivity |].
    apply Hother. intros [Hget _]. discriminate Hget.
  - edestruct (fixture_exactly_on_fragment_match (failed "get" "/auth/profile"))
      as [_ Hother]; [right; reflexivity | reflexivity |].
    apply Hother. intros (_ & fragment & Hin & Hinc).
    unfold fixture_fragments in Hin.
    repeat (apply elem_of_cons in Hin as [->|Hin]; [discriminate Hinc|]).
    by apply elem_of_nil in Hin.
Defined.

(** The page asks for [/resumes/<id>/download] with GET (Resumes page): not
    one of the five endpoints, yet on a connection failure the handler
    answers it with the list of resumes. *)
Lemma fixture_for_resume_download :
  let st := page_load ∅ "/resumes" 1700000000000 in
  let error := {|
    code := Some "ERR_NETWORK";
    config := Some {| url := Some "/resumes/7/download"; method := Some "get";
                      headers := ∅ |};
    error_response := None;
    error_message := "Network Error" |} in
  ("/resumes/7/download" ∉ fixture_fragments) ∧
  response_interceptor_rejected error st
    = (inr {| data := ResumeList (MockData.resumes MOCK_DATA) |}, st).
Proof.
  split; [|by vm_compute].
  unfold fixture_fragments. rewrite !not_elem_of_cons.
  repeat split; try done. apply not_elem_of_nil.
Qed.

(** What the handler does with a 401 that is not a connection-level
    failure. *)
Lemma unauthorized_result (error : axios_error) (r : http_response)
    (st : state) :
  is_network_error error = false →
  error_response error = Some r →
  status r = 401 →
  response_interceptor_rejected error st =
    (inl (AxiosError error),
     with_location_href "/login"
       (with_localStorage (delete "user")
          (with_localStorage (delete "token") st))).
Proof.
  intros Hnet Hresp Hstatus.
  unfold response_interceptor_rejected. rewrite Hnet, Hresp. simpl.
  by rewrite Hstatus.
Qed.

(** C1, as the code has it.  For every error that is not a connection-level
    failure and carries a response with status 401, the error handler
    removes the token and the user value from storage, sets
    [window.location.href] to [/login], and rejects with the error.  It
    leaves the gateway's default headers and the current user as they
    were. *)
Theorem unauthorized_clears_storage (error : axios_error) (r : http_response)
    (st : state) :
  is_network_error error = false →
  error_response error = Some r →
  status r = 401 →
  let st' := (response_interceptor_rejected error st).2 in
  (response_interceptor_rejected error st).1 = inl (AxiosError error) ∧
  localStorage st' !! "token" = None ∧
  localStorage st' !! "user" = None ∧
  location_href st' = "/login" ∧
  defaults_headers_common st' = defaults_headers_common st ∧
  user st' = user st.
Proof.
  intros Hnet Hresp Hstatus.
  rewrite (unauthorized_result error r) by done. simpl.
  repeat split; try done.
  - rewrite lookup_delete_ne by done. apply lookup_delete_eq.
  - apply lookup_delete_eq.
Qed.

Lemma unauthorized_clears_storage_witness :
  let st := (@login reference_runtime "demo@jobtracker.com" "password123"
               (page_load ∅ "/login" 1700000000000)).2 in
  let error := {|
    code := Some "ERR_BAD_REQUEST";
    config := Some {| url := Some "/auth/profile"; method := Some "put";
                      headers := ∅ |};
    error_response := Some {| status := 401 |};
    error_message := "Request failed with status code 401" |} in
  let st' := (response_interceptor_rejected error st).2 in
  (response_interceptor_rejected error st).1 = inl (AxiosError error) ∧
  localStorage st' !! "token" = None ∧
  localStorage st' !! "user" = None ∧
  location_href st' = "/login" ∧
  defaults_headers_common st' = defaults_headers_common st ∧
  user st' = user st.
Proof.
  intros st error.
  apply (unauthorized_clears_storage error {| status := 401 |} st);
    reflexivity.
Defined.

(** After a login, a 401 leaves the default Authorization header of the
    gateway in place and the current user set: the handler does not do what
    [logout] does to them. *)
Lemma unauthorized_keeps_header_and_user :
  let st := (@login reference_runtime "demo@jobtracker.com" "password123"
               (page_load ∅ "/login" 1700000000000)).2 in
  let error := {|
    code := Some "ERR_BAD_REQUEST";
    config := Some {| url := Some "/auth/profile"; method := Some "put";
                      headers := ∅ |};
    error_response := Some {| status := 401 |};
    error_message := "Request failed with status code 401" |} in
  let st' := (response_interceptor_rejected error st).2 in
  defaults_headers_common st' !! "Authorization"
    = Some "Bearer mock-jwt-token-1700000000000" ∧
  authenticated st' = true ∧
  defaults_headers_common (logout st).2 !! "Authorization" = None ∧
  authenticated (logout st).2 = false.
Proof. by vm_compute. Qed.

(** A connection-level failure is answered before the status is looked at:
    an error object carrying both a network code and a 401 response gets the
    fixture and nothing is cleared. *)
Lemma fixture_precedes_unauthorized (error : axios_error) (cfg : request_config)
    (st : state) :
  is_network_error error = true →
  config error = Some cfg →
  url cfg = Some "/applications" →
  method cfg = Some "get" →
  response_interceptor_rejected error st
    = (inr {| data := ApplicationList (MockData.applications MOCK_DATA) |}, st).
Proof.
  intros Hnet Hcfg Hurl Hm.
  unfold response_interceptor_rejected. by rewrite Hnet, Hcfg, Hurl, Hm.
Qed.

Section ReloadFacts.
Context `{JsonRuntime}.

(** The navigation to [/login] loads the page anew; the fresh page finds
    neither value in storage, so it starts, and stays after [restore],
    without a current user and without a default Authorization header. *)
Lemma unauthorized_then_reload (error : axios_error) (r : http_response)
    (st : state) (now : Z) :
  is_network_error error = false →
  error_response error = Some r →
  status r = 401 →
  let st' := (response_interceptor_rejected error st).2 in
  let fresh :=
    (restore (page_load (localStorage st') (location_href st') now)).2 in
  location_href fresh = "/login" ∧
  localStorage fresh !! "token" = None ∧
  localStorage fresh !! "user" = None ∧
  user fresh = JSON.VNull ∧
  defaults_headers_common fresh !! "Authorization" = None.
Proof.
  intros Hnet Hresp Hstatus.
  rewrite (unauthorized_result error r) by done. simpl.
  assert (delete "user" (delete "token" (localStorage st)) !! "token"
          = (None : option string)) as Htoken.
  { rewrite lookup_delete_ne by done. apply lookup_delete_eq. }
  rewrite restore_guard_false; simpl; [|by rewrite Htoken].
  repeat split; try done. apply lookup_delete_eq.
Qed.

End ReloadFacts.

(** ** The model at work *)

(** A login, a reload of the page, and [restore]: the stored user value is
    parsed back into the current user and the header is set again. *)
Example login_reload_restore :
  let logged_in :=
    (@login reference_runtime "test@test.com" "test123"
       (page_load ∅ "/login" 1700000000000)).2 in
  let reloaded :=
    (@restore reference_runtime
       (page_load (localStorage logged_in) "/dashboard" 1700000005000)).2 in
  localStorage logged_in !! "user"
    = Some (JSON.stringify (userData_of (MockUser.mk "3" "test@test.com"
                                           "test123" "Test User" true))) ∧
  user reloaded = user logged_in ∧
  loading reloaded = false ∧
  defaults_headers_common reloaded !! "Authorization"
    = Some "Bearer mock-jwt-token-1700000000000".
Proof. by vm_compute. Qed.

(** A registered user can log in afterwards; registering twice fails. *)
Example register_then_login :
  let st := page_load ∅ "/register" 1700000000000 in
  let st1 := (register "Ada" "ada@example.com" "secret" st).2 in
  let st2 := (@login reference_runtime "ada@example.com" "secret" st1).2 in
  authenticated st1 = false ∧
  (register "Ada" "ada@example.com" "other" st1).1
    = inl (Error "User with this email already exists") ∧
  JSON.get "id" (user st2) = Some (JSON.VString "4") ∧
  authenticated st2 = true.
Proof. by vm_compute. Qed.

(** * Further properties of the request gateway (api.ts) *)

(** The code after the block of fixture responses, case by case. *)
Lemma after_fixtures_cases (error : axios_error) (st : state) :
  let tail : M response :=
    (if bool_decide (status <$> error_response error = Some 401) then
       localStorage_removeItem "token";;
       localStorage_removeItem "user";;
       window_location_href_set "/login"
     else mret ());;
    throw (AxiosError error) in
  (status <$> error_response error ≠ Some 401 ∧
   tail st = (inl (AxiosError error), st)) ∨
  (status <$> error_response error = Some 401 ∧
   tail st =
     (inl (AxiosError error),
      with_location_href "/login"
        (with_localStorage (delete "user")
           (with_localStorage (delete "token") st)))).
Proof. run. case_bool_decide; auto. Qed.

(** The three ways the error handler can end: a fixture with the state
    untouched, a throw with the state untouched, or the error thrown on after
    storage was cleared and the location set. *)
Lemma error_handler_outcomes (error : axios_error) (st : state) :
  (∃ r, response_interceptor_rejected error st = (inr r, st)) ∨
  (∃ e, response_interceptor_rejected error st = (inl e, st)) ∨
  (status <$> error_response error = Some 401 ∧
   response_interceptor_rejected error st =
     (inl (AxiosError error),
      with_location_href "/login"
        (with_localStorage (delete "user")
           (with_localStorage (delete "token") st)))).
Proof.
  pose proof (after_fixtures_cases error st) as Htail. simpl in Htail.
  unfold response_interceptor_rejected.
  destruct (is_network_error error).
  - destruct (config error) as [cfg|]; [|right; left; by eexists].
    repeat (destruct (_ && _); [left; by eexists|]).
    destruct Htail as [[_ ->]|[? ->]]; eauto.
  - destruct Htail as [[_ ->]|[? ->]]; eauto.
Qed.

(** X1.  An error that is not a connection-level failure is never answered
    with a fixture: the handler rejects with the very error it received, and
    unless the error carries status 401 it leaves the whole state as it
    was. *)
Theorem other_errors_pass_through (error : axios_error) (st : state) :
  is_network_error error = false →
  (response_interceptor_rejected error st).1 = inl (AxiosError error) ∧
  (status <$> error_response error ≠ Some 401 →
   (response_interceptor_rejected error st).2 = st).
Proof.
  intros Hnet. unfold response_interceptor_rejected. rewrite Hnet. run.
  case_bool_decide; by split.
Qed.

Lemma other_errors_pass_through_witness :
  let st := page_load {[ "token" := "mock-jwt-token-1" ]} "/applications" 0 in
  let error := {|
    code := Some "ERR_BAD_RESPONSE";
    config := Some {| url := Some "/applications"; method := Some "get";
                      headers := ∅ |};
    error_response := Some {| status := 500 |};
    error_message := "Request failed with status code 500" |} in
  (response_interceptor_rejected error st).1 = inl (AxiosError error) ∧
  (response_interceptor_rejected error st).2 = st.
Proof.
  intros st error.
  destruct (other_errors_pass_through error st) as [Hres Hstate];
    [reflexivity|].
  split; [exact Hres|]. apply Hstate. discriminate.
Defined.

(** X2.  Whatever error it receives, the error handler never touches the
    gateway's default headers, the current user, the user table, the shown
    toasts, or any storage entry other than [token] and [user]; the location
    is either unchanged or [/login]. *)
Theorem error_handler_frame (error : axios_error) (st : state) :
  let st' := (response_interceptor_rejected error st).2 in
  defaults_headers_common st' = defaults_headers_common st ∧
  user st' = user st ∧
  loading st' = loading st ∧
  MOCK_USERS st' = MOCK_USERS st ∧
  toasts st' = toasts st ∧
  (∀ key, key ≠ "token" → key ≠ "user" →
          localStorage st' !! key = localStorage st !! key) ∧
  (location_href st' = location_href st ∨ location_href st' = "/login").
Proof.
  destruct (error_handler_outcomes error st)
    as [[r ->]|[[e ->]|[_ ->]]]; simpl.
  - repeat split; auto.
  - repeat split; auto.
  - repeat split; auto.
    intros key Htoken Huser. by rewrite !lookup_delete_ne.
Qed.

(** X3.  On a connection-level failure of a GET request the fragments are
    tried in a fixed order and the first one found in the URL decides the
    fixture: [/applications] wins over everything, then [/resumes], then
    [/reminders], then [/dashboard/stats], then [/analytics].  The state is
    untouched in each case. *)
Theorem fixture_by_first_fragment (error : axios_error) (cfg : request_config)
    (st : state) :
  code error = Some "ERR_NETWORK" ∨ code error = Some "ECONNREFUSED" →
  config error = Some cfg →
  JsString.toLowerCase <$> method cfg = Some "get" →
  let has := url_includes (url cfg) in
  let result := response_interceptor_rejected error st in
  (has "/applications" = true →
   result = (inr {| data := ApplicationList (MockData.applications MOCK_DATA) |},
             st)) ∧
  (has "/applications" = false → has "/resumes" = true →
   result = (inr {| data := ResumeList (MockData.resumes MOCK_DATA) |}, st)) ∧
  (has "/applications" = false → has "/resumes" = false →
   has "/reminders" = true →
   result = (inr {| data := ReminderList (MockData.reminders MOCK_DATA) |}, st)) ∧
  (has "/applications" = false → has "/resumes" = false →
   has "/reminders" = false → has "/dashboard/stats" = true →
   ∃ s, result = (inr {| data := DashboardStats s |}, st)) ∧
  (has "/applications" = false → has "/resumes" = false →
   has "/reminders" = false → has "/dashboard/stats" = false →
   has "/analytics" = true →
   ∃ a, result = (inr {| data := AnalyticsBundle a |}, st)).
Proof.
  intros Hnet%is_network_error_codes Hcfg Hget has result.
  subst has result. unfold response_interceptor_rejected.
  rewrite Hnet, Hcfg, Hget. simpl.
  repeat split.
  - by intros ->.
  - by intros -> ->.
  - by intros -> -> ->.
  - intros -> -> -> ->. by eexists.
  - intros -> -> -> -> ->. by eexists.
Qed.

Lemma fixture_by_first_fragment_witness :
  let st := page_load ∅ "/reminders" 0 in
  let failed (u : string) := {|
    code := Some "ERR_NETWORK";
    config := Some {| url := Some u; method := Some "get"; headers := ∅ |};
    error_response := None;
    error_message := "Network Error" |} in
  response_interceptor_rejected
    (failed "/applications?fields=id,company,position") st
    = (inr {| data := ApplicationList (MockData.applications MOCK_DATA) |}, st) ∧
  response_interceptor_rejected (failed "/resumes/2/download") st
    = (inr {| data := ResumeList (MockData.resumes MOCK_DATA) |}, st) ∧
  response_interceptor_rejected (failed "/analytics/applications") st
    = (inr {| data := ApplicationList (MockData.applications MOCK_DATA) |}, st).
Proof.
  intros st failed. split; [|split].
  - edestruct (fixture_by_first_fragment
                 (failed "/applications?fields=id,company,position"))
      as (Hfirst & _); [left; reflexivity | reflexivity | reflexivity |].
    exact (Hfirst eq_refl).
  - edestruct (fixture_by_first_fragment (failed "/resumes/2/download"))
      as (_ & Hsecond & _); [left; reflexivity | reflexivity | reflexivity |].
    exact (Hsecond eq_refl eq_refl).
  - edestruct (fixture_by_first_fragment (failed "/analytics/applications"))
      as (Hfirst & _); [left; reflexivity | reflexivity | reflexivity |].
    exact (Hfirst eq_refl).
Defined.

(** X4.  Whenever the error handler resolves, the error was a connection-level
    failure of a request whose lowered method is [get] and whose URL contains
    one of the five fragments, and the state is exactly what it was: a
    fixture response never clears the session, whatever status the error
    carries. *)
Theorem resolved_only_for_offline_get (error : axios_error) (st : state)
    (r : response) :
  (response_interceptor_rejected error st).1 = inr r →
  is_network_error error = true ∧
  (∃ cfg fragment,
     config error = Some cfg ∧
     JsString.toLowerCase <$> method cfg = Some "get" ∧
     fragment ∈ fixture_fragments ∧
     url_includes (url cfg) fragment = true) ∧
  (response_interceptor_rejected error st).2 = st.
Proof.
  pose proof (after_fixtures_cases error st) as Htail. simpl in Htail.
  unfold response_interceptor_rejected.
  destruct (is_network_error error) eqn:Hnet.
  - destruct (config error) as [cfg|] eqn:Hcfg; [|by run].
    simpl.
    destruct (bool_decide (JsString.toLowerCase <$> method cfg = Some "get"))
      eqn:Hget.
    + apply bool_decide_eq_true in Hget.
      repeat
        (match goal with
         | |- context [url_includes (url cfg) ?f && true] =>
             destruct (url_includes (url cfg) f) eqn:?; simpl
         end;
         [intros _; split; [reflexivity|]; split; [|reflexivity];
          eexists cfg, _; split; [reflexivity|]; split; [exact Hget|];
          split; [|eassumption];
          unfold fixture_fragments;
          repeat (apply list_elem_of_here || apply list_elem_of_further)|]).
      by destruct Htail as [[_ ->]|[_ ->]].
    + rewrite !andb_false_r. by destruct Htail as [[_ ->]|[_ ->]].
  - by destruct Htail as [[_ ->]|[_ ->]].
Qed.

Lemma resolved_only_for_offline_get_witness :
  let st := page_load {[ "token" := "mock-jwt-token-1" ]} "/reminders" 0 in
  let error := {|
    code := Some "ERR_NETWORK";
    config := Some {| url := Some "/reminders"; method := Some "get";
                      headers := ∅ |};
    error_response := Some {| status := 401 |};
    error_message := "Network Error" |} in
  is_network_error error = true ∧
  (∃ cfg fragment,
     config error = Some cfg ∧
     JsString.toLowerCase <$> method cfg = Some "get" ∧
     fragment ∈ fixture_fragments ∧
     url_includes (url cfg) fragment = true) ∧
  (response_interceptor_rejected error st).2 = st.
Proof.
  intros st error.
  apply (resolved_only_for_offline_get error st
           {| data := ReminderList (MockData.reminders MOCK_DATA) |}).
  reflexivity.
Defined.

(** X5.  The request interceptor never throws and never changes the state,
    the URL, the method, or any header other than Authorization.  With a
    non-empty token in storage the Authorization header becomes
    [Bearer <token>], replacing whatever the request carried; with no token,
    or an empty one, the request is returned as it came.  Running the
    interceptor on its own result changes nothing more. *)
Theorem request_interceptor_frame (config : request_config) (st : state) :
  ∃ config',
    request_interceptor config st = (inr config', st) ∧
    url config' = url config ∧
    method config' = method config ∧
    (∀ key, key ≠ "Authorization" →
            headers config' !! key = headers config !! key) ∧
    headers config' !! "Authorization" =
      match localStorage st !! "token" with
      | Some (String c token) => Some ("Bearer " +:+ String c token)
      | _ => headers config !! "Authorization"
      end ∧
    (match localStorage st !! "token" with
     | Some (String _ _) => True
     | _ => config' = config
     end) ∧
    request_interceptor config' st = (inr config', st).
Proof.
  unfold request_interceptor. run.
  destruct (localStorage st !! "token") as [[|c token]|]; simpl.
  - exists config. repeat split; auto.
  - eexists. split; [reflexivity|]. simpl. repeat split; auto.
    + intros key Hkey. by rewrite lookup_insert_ne.
    + apply lookup_insert_eq.
    + by rewrite insert_insert_eq.
  - exists config. repeat split; auto.
Qed.

(** * Further properties of the session store (AuthContext.jsx) *)

Lemma find_credentials_app (email password : string)
    (users more : list MockUser.t) (u : MockUser.t) :
  find (λ u, bool_decide (MockUser.email u = email) &&
             bool_decide (MockUser.password u = password)) users = Some u →
  find (λ u, bool_decide (MockUser.email u = email) &&
             bool_decide (MockUser.password u = password)) (users ++ more)
    = Some u.
Proof.
  induction users as [|v users IH]; simpl; [done|].
  by destruct (_ && _).
Qed.

Lemma find_credentials_new (email password : string)
    (users : list MockUser.t) (u : MockUser.t) :
  (∀ v, v ∈ users → MockUser.email v ≠ email) →
  MockUser.email u = email →
  MockUser.password u = password →
  find (λ u, bool_decide (MockUser.email u = email) &&
             bool_decide (MockUser.password u = password)) (users ++ [u])
    = Some u.
Proof.
  intros Habsent He Hp.
  induction users as [|v users IH]; simpl.
  - by rewrite !bool_decide_eq_true_2.
  - rewrite bool_decide_eq_false_2; simpl.
    + apply IH. intros w Hin. apply Habsent. by apply list_elem_of_further.
    + apply Habsent. apply list_elem_of_here.
Qed.

Lemma find_email_absent (email : string) (users : list MockUser.t) :
  (∀ u, u ∈ users → MockUser.email u ≠ email) →
  find (λ u, bool_decide (MockUser.email u = email)) users = None.
Proof.
  intros Habsent.
  destruct (find _ users) as [u|] eqn:Hfind; [|done].
  apply find_email_Some in Hfind as [Hin He]. by destruct (Habsent u Hin).
Qed.

Lemma append_inj_r (prefix a b : string) :
  prefix +:+ a = prefix +:+ b → a = b.
Proof.
  induction prefix as [|c prefix IH]; [done|].
  intros Heq. apply IH. unfold String.app in Heq. simpl in Heq. by simplify_eq.
Qed.

(** What [register] does, by the outcome of the look-up. *)
Lemma register_novel (name email password : string) (st : state) :
  find (λ u, bool_decide (MockUser.email u = email)) (MOCK_USERS st) = None →
  register name email password st =
    (inr (),
     with_toast
       (toast_success_shown
          "Registration successful! You can now log in with your credentials.")
       (with_MOCK_USERS
          (λ us, us ++ [{|
             MockUser.id := pretty (length (MOCK_USERS st) + 1)%nat;
             MockUser.email := email;
             MockUser.password := password;
             MockUser.name := name;
             MockUser.isVerified := true |}])
          st)).
Proof. intros Hfind. unfold register. run. by rewrite Hfind. Qed.

Lemma register_taken (name email password : string) (st : state)
    (existingUser : MockUser.t) :
  find (λ u, bool_decide (MockUser.email u = email)) (MOCK_USERS st)
    = Some existingUser →
  register name email password st =
    (inl (Error "User with this email already exists"),
     with_toast (toast_error_shown "User with this email already exists") st).
Proof. intros Hfind. unfold register. run. by rewrite Hfind. Qed.

Section SessionStoreFacts.
Context `{JsonRuntime}.

(** What a successful look-up makes [login] do. *)
Lemma login_found (email password : string) (st : state) (mockUser : MockUser.t) :
  find (λ u, bool_decide (MockUser.email u = email) &&
             bool_decide (MockUser.password u = password)) (MOCK_USERS st)
    = Some mockUser →
  login email password st =
    (inr (),
     with_toast (toast_success_shown "Successfully logged in!")
       (with_user (userData_of mockUser)
          (with_defaults_headers_common
             <["Authorization" :=
                 "Bearer " +:+ "mock-jwt-token-" +:+ pretty (Date_now st)]>
             (with_localStorage
                <["user" := JSON_stringify (userData_of mockUser)]>
                (with_localStorage
                   <["token" := "mock-jwt-token-" +:+ pretty (Date_now st)]>
                   st))))).
Proof. intros Hfind. unfold login. run. by rewrite Hfind. Qed.

(** When the guard holds and [JSON.parse] returns, the parsed value becomes
    the current user and the header is set. *)
Lemma restore_parse_returns (st : state) (token userData : string)
    (v : JSON.value) :
  localStorage st !! "token" = Some token →
  localStorage st !! "user" = Some userData →
  token ≠ "" →
  userData ≠ "" →
  JSON_parse userData = inr v →
  restore st =
    (inr (),
     with_loading false
       (with_defaults_headers_common
          <["Authorization" := "Bearer " +:+ token]> (with_user v st))).
Proof.
  intros Htoken Huser Ht Hu Hparse. unfold restore, JSON_parse_call. run.
  rewrite Htoken, Huser, !truthy_nonempty by done. simpl.
  by rewrite Hparse.
Qed.

(** X6.  When storage holds a non-empty token and a non-empty user value that
    [JSON.parse] accepts, [restore] makes the parsed value the current user,
    sets the gateway's default Authorization header to [Bearer <token>],
    clears [loading], and leaves storage, the user table and the toasts as
    they were. *)
Theorem restore_valid_session (st : state) (token userData : string)
    (v : JSON.value) :
  localStorage st !! "token" = Some token →
  localStorage st !! "user" = Some userData →
  token ≠ "" →
  userData ≠ "" →
  JSON_parse userData = inr v →
  let st' := (restore st).2 in
  (restore st).1 = inr () ∧
  user st' = v ∧
  defaults_headers_common st' !! "Authorization" = Some ("Bearer " +:+ token) ∧
  loading st' = false ∧
  localStorage st' = localStorage st ∧
  MOCK_USERS st' = MOCK_USERS st ∧
  toasts st' = toasts st.
Proof.
  intros Htoken Huser Ht Hu Hparse.
  rewrite (restore_parse_returns st token userData v) by done. simpl.
  repeat split; auto. apply lookup_insert_eq.
Qed.

(** X7.  [restore] never throws, whatever storage holds and whatever
    [JSON.parse] does: it always returns normally with [loading] cleared.  It
    never adds or changes a storage entry (it can only remove [token] and
    [user]), and it never touches the user table, the toasts or the
    location. *)
Theorem restore_never_throws (st : state) :
  let st' := (restore st).2 in
  (restore st).1 = inr () ∧
  loading st' = false ∧
  (∀ key value, localStorage st' !! key = Some value →
                localStorage st !! key = Some value) ∧
  (∀ key, key ≠ "token" → key ≠ "user" →
          localStorage st' !! key = localStorage st !! key) ∧
  MOCK_USERS st' = MOCK_USERS st ∧
  toasts st' = toasts st ∧
  location_href st' = location_href st.
Proof.
  destruct (localStorage st !! "token") as [token|] eqn:Htoken;
    [destruct (localStorage st !! "user") as [userData|] eqn:Huser;
     [destruct (decide (token = "")) as [->|Ht];
      [|destruct (decide (userData = "")) as [->|Hu];
        [|destruct (JSON_parse userData) as [msg|v] eqn:Hparse]]|]|].
  - rewrite restore_guard_false by (by rewrite Htoken, Huser). simpl. auto 10.
  - rewrite restore_guard_false
      by (rewrite Htoken, Huser; apply andb_false_r). simpl. auto 10.
  - rewrite (restore_parse_throws st token userData msg) by done. simpl.
    repeat split; auto.
    + intros key value Hlookup.
      apply lookup_delete_Some in Hlookup as [_ Hlookup].
      by apply lookup_delete_Some in Hlookup as [_ Hlookup].
    + intros key Hk1 Hk2. by rewrite !lookup_delete_ne.
  - rewrite (restore_parse_returns st token userData v) by done. simpl. auto 10.
  - rewrite restore_guard_false by (by rewrite Htoken, Huser). simpl. auto 10.
  - rewrite restore_guard_false by (by rewrite Htoken). simpl. auto 10.
Qed.

(** X8.  A session survives a reload of the page.  After a successful
    [login], loading the page anew over the same storage and running
    [restore] gives back the same current user and the same default
    Authorization header, provided the JSON runtime parses what it printed
    for that user back to the same value and prints a non-empty text. *)
Theorem login_survives_reload (email password : string) (st : state)
    (href : string) (now : Z) :
  (∃ u, u ∈ MOCK_USERS st ∧
        MockUser.email u = email ∧ MockUser.password u = password) →
  (∀ u, u ∈ MOCK_USERS st →
        JSON_stringify (userData_of u) ≠ "" ∧
        JSON_parse (JSON_stringify (userData_of u)) = inr (userData_of u)) →
  let logged_in := (login email password st).2 in
  let reloaded := (restore (page_load (localStorage logged_in) href now)).2 in
  (restore (page_load (localStorage logged_in) href now)).1 = inr () ∧
  user reloaded = user logged_in ∧
  defaults_headers_common reloaded !! "Authorization"
    = defaults_headers_common logged_in !! "Authorization" ∧
  localStorage reloaded = localStorage logged_in ∧
  JSON.get "email" (user reloaded) = Some (JSON.VString email) ∧
  authenticated reloaded = true.
Proof.
  intros [mockUser Hfind]%find_credentials_found Hruntime.
  destruct (find_credentials_Some _ _ _ _ Hfind) as (Hin & He & Hp).
  destruct (Hruntime mockUser Hin) as [Hnonempty Hroundtrip].
  rewrite (login_found _ _ _ mockUser) by done. simpl.
  rewrite (restore_parse_returns _
             ("mock-jwt-token-" +:+ pretty (Date_now st))
             (JSON_stringify (userData_of mockUser))
             (userData_of mockUser)); simpl; try done.
  - repeat split; auto.
    + by rewrite !lookup_insert_eq.
    + by rewrite He.
  - rewrite lookup_insert_ne by done. apply lookup_insert_eq.
  - apply lookup_insert_eq.
Qed.

(** X9.  Registration and login compose: after [register] with an email no
    record has, [login] with the same email and password returns normally
    and the current user is the new record's public fields: the given name
    and email, verified, with id the new length of the table. *)
Theorem register_then_login_succeeds (name email password : string)
    (st : state) :
  (∀ u, u ∈ MOCK_USERS st → MockUser.email u ≠ email) →
  let registered := (register name email password st).2 in
  (register name email password st).1 = inr () ∧
  (login email password registered).1 = inr () ∧
  user (login email password registered).2 =
    JSON.VObject [
      ("id", JSON.VString (pretty (S (length (MOCK_USERS st)))));
      ("email", JSON.VString email);
      ("name", JSON.VString name);
      ("isVerified", JSON.VBool true)
    ].
Proof.
  intros Habsent.
  rewrite register_novel by by apply find_email_absent. simpl.
  rewrite (login_found _ _ _ {|
             MockUser.id := pretty (length (MOCK_USERS st) + 1)%nat;
             MockUser.email := email;
             MockUser.password := password;
             MockUser.name := name;
             MockUser.isVerified := true |})
    by (simpl; by apply find_credentials_new).
  simpl. unfold userData_of. simpl. by rewrite Nat.add_1_r.
Qed.

(** X10.  Registering never invalidates existing credentials: when an email
    and password log in before a call of [register] (whatever its arguments
    and outcome), they log in after it, as the same user. *)
Theorem register_keeps_logins (email password name' email' password' : string)
    (st : state) :
  (∃ u, u ∈ MOCK_USERS st ∧
        MockUser.email u = email ∧ MockUser.password u = password) →
  let st' := (register name' email' password' st).2 in
  (login email password st').1 = inr () ∧
  user (login email password st').2 = user (login email password st).2.
Proof.
  intros [mockUser Hfind]%find_credentials_found.
  rewrite (login_found _ _ st mockUser) by done.
  destruct (find (λ u, bool_decide (MockUser.email u = email'))
              (MOCK_USERS st)) as [existingUser|] eqn:Hemail.
  - rewrite (register_taken _ _ _ _ existingUser) by done. simpl.
    by rewrite (login_found _ _ _ mockUser).
  - rewrite register_novel by done. simpl.
    rewrite (login_found _ _ _ mockUser); [done|].
    simpl. by apply find_credentials_app.
Qed.

(** X11.  The token is a function of the clock alone.  Two successful logins
    store the same token exactly when [Date.now()] returned the same number,
    whoever logged in: users logging in at the same instant share a token,
    and logins at different instants never do. *)
Theorem login_token_is_clock_only (email1 password1 email2 password2 : string)
    (st1 st2 : state) :
  (∃ u, u ∈ MOCK_USERS st1 ∧
        MockUser.email u = email1 ∧ MockUser.password u = password1) →
  (∃ u, u ∈ MOCK_USERS st2 ∧
        MockUser.email u = email2 ∧ MockUser.password u = password2) →
  localStorage (login email1 password1 st1).2 !! "token"
    = localStorage (login email2 password2 st2).2 !! "token"
  ↔ Date_now st1 = Date_now st2.
Proof.
  intros [u1 Hfind1]%find_credentials_found [u2 Hfind2]%find_credentials_found.
  rewrite (login_found _ _ st1 u1), (login_found _ _ st2 u2) by done. simpl.
  rewrite !(lookup_insert_ne _ "user" "token") by done.
  rewrite !lookup_insert_eq.
  split.
  - intros Htoken. apply (inj pretty).
    apply (append_inj_r "mock-jwt-token-"). congruence.
  - by intros ->.
Qed.

(** X12.  [login] touches nothing but the session: whatever its outcome, the
    user table, the location and every storage entry other than [token] and
    [user] are unchanged, and so is every default header of the gateway
    other than Authorization. *)
Theorem login_frame (email password : string) (st : state) :
  let st' := (login email password st).2 in
  MOCK_USERS st' = MOCK_USERS st ∧
  location_href st' = location_href st ∧
  (∀ key, key ≠ "token" → key ≠ "user" →
          localStorage st' !! key = localStorage st !! key) ∧
  (∀ key, key ≠ "Authorization" →
          defaults_headers_common st' !! key
          = defaults_headers_common st !! key).
Proof.
  destruct (find (λ u, bool_decide (MockUser.email u = email) &&
                       bool_decide (MockUser.password u = password))
              (MOCK_USERS st)) as [mockUser|] eqn:Hfind.
  - rewrite (login_found _ _ _ mockUser) by done. simpl.
    repeat split; auto.
    + intros key Hk1 Hk2. by rewrite !lookup_insert_ne.
    + intros key Hk. by rewrite lookup_insert_ne.
  - rewrite login_not_found by done. simpl. auto.
Qed.

End SessionStoreFacts.

Lemma login_survives_reload_witness :
  let st := page_load ∅ "/login" 1700000000000 in
  let logged_in :=
    (@login reference_runtime "john@example.com" "password123" st).2 in
  let reloaded :=
    (@restore reference_runtime
       (page_load (localStorage logged_in) "/dashboard" 1700000009000)).2 in
  (@restore reference_runtime
     (page_load (localStorage logged_in) "/dashboard" 1700000009000)).1
    = inr () ∧
  user reloaded = user logged_in ∧
  defaults_headers_common reloaded !! "Authorization"
    = defaults_headers_common logged_in !! "Authorization" ∧
  localStorage reloaded = localStorage logged_in ∧
  JSON.get "email" (user reloaded) = Some (JSON.VString "john@example.com") ∧
  authenticated reloaded = true.
Proof.
  apply (@login_survives_reload reference_runtime).
  - eexists. split; [apply list_elem_of_further, list_elem_of_here|].
    by split.
  - intros u Hin. simpl in Hin.
    repeat (apply elem_of_cons in Hin as [->|Hin]; [by vm_compute|]).
    by apply elem_of_nil in Hin.
Defined.

Lemma restore_valid_session_witness :
  let st :=
    page_load {[ "token" := "mock-jwt-token-1700000000000"; "user" := "null" ]}
      "/dashboard" 1700000009000 in
  let st' := (@restore reference_runtime st).2 in
  (@restore reference_runtime st).1 = inr () ∧
  user st' = JSON.VNull ∧
  defaults_headers_common st' !! "Authorization"
    = Some ("Bearer " +:+ "mock-jwt-token-1700000000000") ∧
  loading st' = false ∧
  localStorage st' = localStorage st ∧
  MOCK_USERS st' = MOCK_USERS st ∧
  toasts st' = toasts st.
Proof.
  apply (@restore_valid_session reference_runtime _
           "mock-jwt-token-1700000000000" "null" JSON.VNull);
    by vm_compute.
Defined.

Lemma register_then_login_succeeds_witness :
  let st := page_load ∅ "/register" 1700000000000 in
  let registered := (register "Ada" "ada@example.com" "secret" st).2 in
  (register "Ada" "ada@example.com" "secret" st).1 = inr () ∧
  (@login reference_runtime "ada@example.com" "secret" registered).1 = inr () ∧
  user (@login reference_runtime "ada@example.com" "secret" registered).2 =
    JSON.VObject [
      ("id", JSON.VString (pretty (S (length (MOCK_USERS st)))));
      ("email", JSON.VString "ada@example.com");
      ("name", JSON.VString "Ada");
      ("isVerified", JSON.VBool true)
    ].
Proof.
  apply (@register_then_login_succeeds reference_runtime).
  intros u Hin He. simpl in Hin.
  repeat (apply elem_of_cons in Hin as [->|Hin]; [discriminate He|]).
  by apply elem_of_nil in Hin.
Defined.

Lemma register_keeps_logins_witness :
  let st := page_load ∅ "/register" 1700000000000 in
  let st' := (register "Ada" "ada@example.com" "secret" st).2 in
  (@login reference_runtime "test@test.com" "test123" st').1 = inr () ∧
  user (@login reference_runtime "test@test.com" "test123" st').2
    = user (@login reference_runtime "test@test.com" "test123" st).2.
Proof.
  apply (@register_keeps_logins reference_runtime).
  eexists. split; [do 2 apply list_elem_of_further; apply list_elem_of_here|].
  by split.
Defined.

Lemma login_token_is_clock_only_witness :
  let st1 := page_load ∅ "/login" 1700000000000 in
  let st2 := page_load ∅ "/login" 1700000000001 in
  localStorage
    (@login reference_runtime "demo@jobtracker.com" "password123" st1).2
    !! "token"
  = localStorage (@login reference_runtime "test@test.com" "test123" st2).2
      !! "token"
  ↔ Date_now st1 = Date_now st2.
Proof.
  apply (@login_token_is_clock_only reference_runtime).
  - eexists. split; [apply list_elem_of_here|]. by split.
  - eexists. split; [do 2 apply list_elem_of_further; apply list_elem_of_here|].
    by split.
Defined.

(** * The user table during the life of a page *)

Lemma table_invariant_initial : table_invariant MOCK_USERS_initial.
Proof.
  split; [|split; [|split]].
  - apply (bool_decide_unpack _). by vm_compute.
  - by vm_compute.
  - by repeat constructor.
  - by exists [].
Qed.

Lemma table_invariant_snoc (users : list MockUser.t) (name email password : string) :
  table_invariant users →
  (∀ u, u ∈ users → MockUser.email u ≠ email) →
  table_invariant
    (users ++ [{| MockUser.id := pretty (length users + 1)%nat;
                  MockUser.email := email;
                  MockUser.password := password;
                  MockUser.name := name;
                  MockUser.isVerified := true |}]).
Proof.
  intros (Hemails & Hids & Hverified & Hprefix) Habsent.
  repeat split.
  - rewrite fmap_app. simpl. apply NoDup_app. split; [done|]. split.
    + intros e Hin Hnew. apply list_elem_of_singleton in Hnew as ->.
      apply list_elem_of_fmap in Hin as (u & He & Hu).
      by apply (Habsent u Hu).
    + apply NoDup_singleton.
  - rewrite fmap_app, length_app. simpl.
    rewrite Nat.add_1_r, seq_S, fmap_app. simpl. by rewrite Hids.
  - apply Forall_app. split; [done|]. by repeat constructor.
  - by apply prefix_app_r.
Qed.

Section PageLifeFacts.
Context `{JsonRuntime}.

Lemma login_keeps_table (email password : string) (st : state) :
  MOCK_USERS (login email password st).2 = MOCK_USERS st.
Proof.
  destruct (find (λ u, bool_decide (MockUser.email u = email) &&
                       bool_decide (MockUser.password u = password))
              (MOCK_USERS st)) as [mockUser|] eqn:Hfind.
  - by rewrite (login_found _ _ _ mockUser).
  - by rewrite login_not_found.
Qed.

Lemma restore_keeps_table (st : state) :
  MOCK_USERS (restore st).2 = MOCK_USERS st.
Proof.
  unfold restore, JSON_parse_call. run.
  repeat case_match; simplify_eq; done.
Qed.

Lemma error_handler_keeps_table (error : axios_error) (st : state) :
  MOCK_USERS (response_interceptor_rejected error st).2 = MOCK_USERS st.
Proof.
  by destruct (error_handler_outcomes error st) as [[r ->]|[[e ->]|[_ ->]]].
Qed.

Lemma perform_keeps_invariant (a : action) (st : state) :
  table_invariant (MOCK_USERS st) →
  table_invariant (MOCK_USERS (perform a st)).
Proof.
  intros Hinv. destruct a as [|email password|name email password| |error|now];
    simpl.
  - by rewrite restore_keeps_table.
  - by rewrite login_keeps_table.
  - destruct (find (λ u, bool_decide (MockUser.email u = email))
                (MOCK_USERS st)) as [existingUser|] eqn:Hemail.
    + by rewrite (register_taken _ _ _ _ existingUser).
    + rewrite register_novel by done. simpl.
      apply table_invariant_snoc; [done|]. by apply find_email_None.
  - done.
  - by rewrite error_handler_keeps_table.
  - done.
Qed.

Lemma perform_all_keeps_invariant (actions : list action) (st : state) :
  table_invariant (MOCK_USERS st) →
  table_invariant (MOCK_USERS (perform_all actions st)).
Proof.
  revert st. induction actions as [|a actions IH]; intros st Hinv; [done|].
  simpl. apply IH. by apply perform_keeps_invariant.
Qed.

(** X13.  Through any sequence of restores, logins, registrations, logouts,
    failed responses and clock changes after a page load, the user table
    keeps its shape: no two records share an email, the ids are 1, 2, 3, ...
    in table order (so no two records share an id), every record is
    verified, and the three declared records are still its first three. *)
Theorem user_table_invariant (storage : gmap string string) (href : string)
    (now : Z) (actions : list action) :
  let users :=
    MOCK_USERS (perform_all actions (page_load storage href now)) in
  NoDup (MockUser.email <$> users) ∧
  MockUser.id <$> users = (λ i, pretty (S i)) <$> seq 0 (length users) ∧
  NoDup (MockUser.id <$> users) ∧
  Forall (λ u, MockUser.isVerified u = true) users ∧
  MOCK_USERS_initial `prefix_of` users.
Proof.
  destruct (perform_all_keeps_invariant actions (page_load storage href now))
    as (Hemails & Hids & Hverified & Hprefix);
    [apply table_invariant_initial|].
  simpl. repeat split; try done.
  rewrite Hids. apply NoDup_fmap_2; [|apply NoDup_seq].
  intros i j Hij. apply (inj pretty) in Hij. lia.
Qed.

Lemma unique_email (users : list MockUser.t) (u v : MockUser.t) :
  NoDup (MockUser.email <$> users) →
  u ∈ users → v ∈ users → MockUser.email u = MockUser.email v → u = v.
Proof.
  intros Hnodup Hu Hv He.
  apply list_elem_of_lookup in Hu as [i Hi], Hv as [j Hj].
  assert (i = j) as ->; [|congruence].
  apply (NoDup_lookup _ i j (MockUser.email u) Hnodup);
    rewrite list_lookup_fmap; [by rewrite Hi | by rewrite Hj, He].
Qed.

(** X14.  At any point of a page's life, an email of the user table has one
    password: [login] with the email of a record returns normally exactly
    when the password given is that record's password. *)
Theorem login_iff_password (storage : gmap string string) (href : string)
    (now : Z) (actions : list action) (u : MockUser.t) (password : string) :
  let st := perform_all actions (page_load storage href now) in
  u ∈ MOCK_USERS st →
  (login (MockUser.email u) password st).1 = inr () ↔
  password = MockUser.password u.
Proof.
  intros st Hin.
  destruct (perform_all_keeps_invariant actions (page_load storage href now))
    as (Hemails & _); [apply table_invariant_initial|]. fold st in Hemails.
  destruct (find (λ v, bool_decide (MockUser.email v = MockUser.email u) &&
                       bool_decide (MockUser.password v = password))
              (MOCK_USERS st)) as [v|] eqn:Hfind.
  - rewrite (login_found _ _ _ v) by done. simpl.
    apply find_credentials_Some in Hfind as (Hv & He & Hp).
    split; [|done]. intros _.
    by rewrite <- (unique_email _ v u Hemails Hv Hin He).
  - rewrite login_not_found by done. simpl.
    split; [done|]. intros ->.
    assert (is_Some (find (λ v, bool_decide (MockUser.email v = MockUser.email u) &&
                       bool_decide (MockUser.password v = MockUser.password u))
              (MOCK_USERS st))) as [w Hw].
    { apply find_credentials_found. by exists u. }
    congruence.
Qed.

(** X15.  A registration does not survive a reload of the page.  After
    [register] with an email that neither the table nor the declared records
    have, [login] with the new credentials returns normally; once the page is
    loaded anew (over whatever storage) and [restore] has run, the same
    [login] throws the invalid-credentials error. *)
Theorem registration_lost_on_reload (name email password : string)
    (st : state) (href : string) (now : Z) :
  (∀ u, u ∈ MOCK_USERS st → MockUser.email u ≠ email) →
  (∀ u, u ∈ MOCK_USERS_initial → MockUser.email u ≠ email) →
  let registered := (register name email password st).2 in
  let reloaded := (restore (page_load (localStorage registered) href now)).2 in
  (login email password registered).1 = inr () ∧
  (login email password reloaded).1 = inl (Error "Invalid email or password").
Proof.
  intros Habsent Hinitial.
  rewrite register_novel by by apply find_email_absent. simpl. split.
  - rewrite (login_found _ _ _ {|
               MockUser.id := pretty (length (MOCK_USERS st) + 1)%nat;
               MockUser.email := email;
               MockUser.password := password;
               MockUser.name := name;
               MockUser.isVerified := true |}); [done|].
    simpl. by apply find_credentials_new.
  - rewrite login_not_found; [done|].
    rewrite restore_keeps_table.
    apply find_credentials_None. intros u Hin [He _]. by apply (Hinitial u).
Qed.

End PageLifeFacts.

Lemma login_iff_password_witness :
  let st :=
    @perform_all reference_runtime
      [Restore; Register "Ada" "ada@example.com" "secret";
       Login "ada@example.com" "secret"; Logout]
      (page_load ∅ "/register" 1700000000000) in
  let ada := MockUser.mk "4" "ada@example.com" "secret" "Ada" true in
  (@login reference_runtime (MockUser.email ada) "secret" st).1 = inr () ↔
  "secret" = MockUser.password ada.
Proof.
  apply (@login_iff_password reference_runtime ∅ "/register" 1700000000000
           [Restore; Register "Ada" "ada@example.com" "secret";
            Login "ada@example.com" "secret"; Logout]
           (MockUser.mk "4" "ada@example.com" "secret" "Ada" true) "secret").
  vm_compute. do 3 apply list_elem_of_further. apply list_elem_of_here.
Defined.

Lemma registration_lost_on_reload_witness :
  let st := page_load ∅ "/register" 1700000000000 in
  let registered := (register "Ada" "ada@example.com" "secret" st).2 in
  let reloaded :=
    (@restore reference_runtime
       (page_load (localStorage registered) "/login" 1700000009000)).2 in
  (@login reference_runtime "ada@example.com" "secret" registered).1 = inr () ∧
  (@login reference_runtime "ada@example.com" "secret" reloaded).1
    = inl (Error "Invalid email or password").
Proof.
  apply (@registration_lost_on_reload reference_runtime);
    intros u Hin He; simpl in Hin;
    repeat (apply elem_of_cons in Hin as [->|Hin]; [discriminate He|]);
    by apply elem_of_nil in Hin.
Defined.

(** X16.  A session leaves no trace: after a [login] (whatever its outcome)
    followed by [logout], storage and the gateway's default headers are
    exactly what [logout] alone would have left, and the current user is
    null. *)
Theorem login_then_logout_leaves_no_trace `{JsonRuntime}
    (email password : string) (st : state) :
  let st' := (logout (login email password st).2).2 in
  localStorage st' = localStorage (logout st).2 ∧
  defaults_headers_common st' = defaults_headers_common (logout st).2 ∧
  user st' = JSON.VNull ∧
  MOCK_USERS st' = MOCK_USERS st.
Proof.
  destruct (find (λ u, bool_decide (MockUser.email u = email) &&
                       bool_decide (MockUser.password u = password))
              (MOCK_USERS st)) as [mockUser|] eqn:Hfind.
  - rewrite (login_found _ _ _ mockUser) by done. unfold logout. run.
    repeat split.
    + rewrite (delete_insert_ne _ "token" "user") by done.
      rewrite delete_insert_eq.
      rewrite delete_insert_eq. done.
    + by rewrite delete_insert_eq.
  - by rewrite login_not_found.
Qed.

(** * The pages *)

(** The request interceptor always returns, a request with the same URL and
    method, and leaves the state alone. *)
Lemma request_interceptor_returns (config : request_config) (st : state) :
  ∃ config',
    request_interceptor config st = (inr config', st) ∧
    url config' = url config ∧
    method config' = method config.
Proof.
  unfold request_interceptor. run.
  destruct (localStorage st !! "token") as [[|c token]|]; simpl; eauto.
Qed.

(** X17.  When no backend is listening, no gateway call changes the state,
    whatever the stored session: a request whose lowered method is not [get]
    is rejected, and a GET whose URL contains one of the five fragments is
    answered with a fixture. *)
Theorem offline_request_outcomes (method url : string) (st : state) :
  (offline_request method url st).2 = st ∧
  (JsString.toLowerCase method ≠ "get" →
   ∃ e, (offline_request method url st).1 = inl e) ∧
  (JsString.toLowerCase method = "get" →
   ∀ fragment, fragment ∈ fixture_fragments →
               JsString.includes url fragment = true →
               ∃ r, (offline_request method url st).1 = inr r).
Proof.
  unfold offline_request. run.
  destruct (request_interceptor_returns
              {| url := Some url; method := Some method;
                 headers := defaults_headers_common st |} st)
    as (config' & -> & Hurl & Hmethod). simpl in *.
  unfold response_interceptor_rejected. simpl. rewrite Hurl, Hmethod. simpl.
  split; [|split].
  - repeat (destruct (_ && _); [done|]). run. done.
  - intros Hget. rewrite !bool_decide_eq_false_2 by congruence.
    rewrite !andb_false_r. run. by eexists.
  - intros Hget fragment Hin Hinc. rewrite Hget. simpl.
    unfold fixture_fragments in Hin.
    repeat (apply elem_of_cons in Hin as [->|Hin];
            [rewrite ?Hinc; simpl; repeat case_match; by eexists|]).
    by apply elem_of_nil in Hin.
Qed.

Lemma offline_request_rejects (method url : string) (st : state) :
  JsString.toLowerCase method ≠ "get" →
  ∃ e, offline_request method url st = (inl e, st).
Proof.
  intros Hget. unfold offline_request. run.
  destruct (request_interceptor_returns
              {| url := Some url; method := Some method;
                 headers := defaults_headers_common st |} st)
    as (config' & -> & Hurl & Hmethod). simpl in *.
  unfold response_interceptor_rejected. simpl. rewrite Hmethod. simpl.
  rewrite !bool_decide_eq_false_2 by congruence.
  rewrite !andb_false_r. run. by eexists.
Qed.

Section ResumeDeletion.
Context {A : Type}.
Variable api_delete : string → M A.

Lemma handleDelete_resolved (id : string) (page : ResumesPage.t)
    (st st1 : state) (a : A) :
  api_delete ("/resumes/" +:+ id) st = (inr a, st1) →
  handleDelete api_delete true id page st =
    (inr (setResumes
            (filter (λ resume, Resume.id resume ≠ id) (ResumesPage.resumes page))
            page),
     with_toast (toast_success_shown "Resume deleted successfully") st1).
Proof. intros Hcall. unfold handleDelete. run. by rewrite Hcall. Qed.

Lemma handleDelete_rejected (id : string) (page : ResumesPage.t)
    (st st1 : state) (e : exn) :
  api_delete ("/resumes/" +:+ id) st = (inl e, st1) →
  handleDelete api_delete true id page st =
    (inr page, with_toast (toast_error_shown "Failed to delete resume") st1).
Proof. intros Hcall. unfold handleDelete. run. by rewrite Hcall. Qed.

(** X18.  Deleting a resume.  If the user does not confirm, nothing happens
    and the gateway is not called.  If the gateway call resolves, exactly the
    resumes with the given id leave the list, the others keep their order,
    and the success toast is shown.  If it rejects, the handler does not
    throw, the list is unchanged and the failure toast is shown. *)
Theorem delete_resume_outcomes (id : string) (page : ResumesPage.t)
    (st : state) :
  handleDelete api_delete false id page st = (inr page, st) ∧
  (∀ a st1,
     api_delete ("/resumes/" +:+ id) st = (inr a, st1) →
     ∃ page',
       handleDelete api_delete true id page st =
         (inr page',
          with_toast (toast_success_shown "Resume deleted successfully") st1) ∧
       (∀ resume, resume ∈ ResumesPage.resumes page' ↔
                  resume ∈ ResumesPage.resumes page ∧ Resume.id resume ≠ id) ∧
       ResumesPage.resumes page' `sublist_of` ResumesPage.resumes page ∧
       id ∉ Resume.id <$> ResumesPage.resumes page') ∧
  (∀ e st1,
     api_delete ("/resumes/" +:+ id) st = (inl e, st1) →
     handleDelete api_delete true id page st =
       (inr page,
        with_toast (toast_error_shown "Failed to delete resume") st1)).
Proof.
  split; [done|]. split.
  - intros a st1 Hcall. eexists. split; [by apply (handleDelete_resolved _ _ _ _ a)|].
    simpl. split; [|split].
    + intros resume. rewrite list_elem_of_filter. tauto.
    + apply sublist_filter.
    + intros (resume & Hid & Hin%list_elem_of_filter)%list_elem_of_fmap.
      by destruct Hin.
  - intros e st1 Hcall. by apply (handleDelete_rejected _ _ _ _ e).
Qed.

End ResumeDeletion.

Section DefaultResume.
Context {A : Type}.
Variable api_put : string → M A.


Lemma handleSetDefault_rejected (id : string) (page : ResumesPage.t)
    (st st1 : state) (e : exn) :
  api_put ("/resumes/" +:+ id +:+ "/default") st = (inl e, st1) →
  handleSetDefault api_put id page st =
    (inr page,
     with_toast (toast_error_shown "Failed to set default resume") st1).
Proof. intros Hcall. unfold handleSetDefault. run. by rewrite Hcall. Qed.





End DefaultResume.

Lemma delete_resume_outcomes_witness :
  let st := page_load ∅ "/resumes" 1700000000000 in
  let page :=
    ResumesPage.mk (MockData.resumes MOCK_DATA) false false None false in
  let backend_ok : string → M () := λ _, mret () in
  ∃ page',
    handleDelete backend_ok true "1" page st =
      (inr page',
       with_toast (toast_success_shown "Resume deleted successfully") st) ∧
    (∀ resume, resume ∈ ResumesPage.resumes page' ↔
               resume ∈ ResumesPage.resumes page ∧ Resume.id resume ≠ "1") ∧
    ResumesPage.resumes page' `sublist_of` ResumesPage.resumes page ∧
    "1" ∉ Resume.id <$> ResumesPage.resumes page'.
Proof.
  intros st page backend_ok.
  destruct (delete_resume_outcomes backend_ok "1" page st) as (_ & Hok & _).
  apply (Hok () st). reflexivity.
Defined.


(** X20.  With no backend listening, the write actions of the Resumes and
    Applications pages never take effect: deleting a resume, setting the
    default resume and deleting an application each end without throwing,
    with the page's list unchanged and the failure toast shown, and the
    session is left as it was. *)
Theorem offline_writes_fail (id : string) (resumes_page : ResumesPage.t)
    (applications_page : ApplicationsPage.t) (st : state) :
  handleDelete (offline_request "delete") true id resumes_page st =
    (inr resumes_page,
     with_toast (toast_error_shown "Failed to delete resume") st) ∧
  handleSetDefault (offline_request "put") id resumes_page st =
    (inr resumes_page,
     with_toast (toast_error_shown "Failed to set default resume") st) ∧
  handleDeleteApplication (offline_request "delete") true id
    applications_page st =
    (inr applications_page,
     with_toast (toast_error_shown "Failed to delete application") st).
Proof.
  split; [|split].
  - destruct (offline_request_rejects "delete" ("/resumes/" +:+ id) st)
      as [e Hcall]; [done|].
    by apply (handleDelete_rejected _ _ _ _ _ e).
  - destruct (offline_request_rejects "put"
                ("/resumes/" +:+ id +:+ "/default") st) as [e Hcall]; [done|].
    by apply (handleSetDefault_rejected _ _ _ _ _ e).
  - destruct (offline_request_rejects "delete" ("/applications/" +:+ id) st)
      as [e Hcall]; [done|].
    unfold handleDeleteApplication. run. by rewrite Hcall.
Qed.

Lemma includes_empty (s : string) : JsString.includes s "" = true.
Proof. by destruct s. Qed.

(** X21.  The list shown by the Applications page is always a selection of
    the applications in their order, and with an empty search box and the
    status filter [all] it is the whole list (lowering the empty string
    gives the empty string). *)
Theorem filtered_applications_default (toLowerCase : string → string)
    (page : ApplicationsPage.t) :
  filteredApplications toLowerCase page
    `sublist_of` ApplicationsPage.applications page ∧
  (toLowerCase "" = "" →
   ApplicationsPage.searchTerm page = "" →
   ApplicationsPage.statusFilter page = "all" →
   filteredApplications toLowerCase page = ApplicationsPage.applications page).
Proof.
  unfold filteredApplications. split; [apply sublist_filter|].
  intros Hlower -> ->. rewrite Hlower.
  induction (ApplicationsPage.applications page) as [|app apps IH]; [done|].
  rewrite filter_cons_True; [by rewrite IH|].
  by rewrite includes_empty.
Qed.

Lemma filtered_applications_default_witness :
  let google :=
    ApplicationsPage.mkApplication "1" "Google" "Senior Frontend Developer"
      "interview" "2024-01-15" (Some 150000) (Some "Mountain View, CA") None
      None None None None None in
  let page := ApplicationsPage.mk [google] false "" "all" false None in
  filteredApplications JsString.toLowerCase page
    = ApplicationsPage.applications page.
Proof.
  intros google page.
  apply (filtered_applications_default JsString.toLowerCase page);
    reflexivity.
Defined.

(** X22.  Saving an application from the modal closes the modal.  When no
    application was being edited the saved one is put in front of the list.
    When one was being edited the list keeps its length, every entry whose id
    is the saved application's id becomes the saved application, and every
    other entry is untouched: if no entry has that id the list does not
    change at all. *)
Theorem application_saved (application : ApplicationsPage.Application)
    (page : ApplicationsPage.t) :
  let page' := handleApplicationSaved application page in
  ApplicationsPage.showModal page' = false ∧
  (ApplicationsPage.editingApplication page = None →
   ApplicationsPage.applications page'
     = application :: ApplicationsPage.applications page) ∧
  (is_Some (ApplicationsPage.editingApplication page) →
   length (ApplicationsPage.applications page')
     = length (ApplicationsPage.applications page) ∧
   (∀ i app, ApplicationsPage.applications page !! i = Some app →
             ApplicationsPage.applications page' !! i =
               Some (if bool_decide (ApplicationsPage.id app
                                     = ApplicationsPage.id application)
                     then application else app)) ∧
   (ApplicationsPage.id application
      ∉ ApplicationsPage.id <$> ApplicationsPage.applications page →
    ApplicationsPage.applications page'
      = ApplicationsPage.applications page)).
Proof.
  unfold handleApplicationSaved.
  split; [done|]. split.
  - by intros ->.
  - intros [editing ->]. simpl. split; [by rewrite length_fmap|]. split.
    + intros i app Hi. by rewrite list_lookup_fmap, Hi.
    + intros Hnotin.
      induction (ApplicationsPage.applications page) as [|app apps IH];
        [done|].
      rewrite fmap_cons in Hnotin.
      apply not_elem_of_cons in Hnotin as [Hne Hnotin].
      rewrite fmap_cons, IH by done.
      by rewrite bool_decide_eq_false_2.
Qed.

Section FormFacts.
Context `{JsonRuntime}.

(** X23.  Submitting the Login or the Register form never throws, clears the
    form's [loading] flag, leaves the state the session store's operation
    left, and shows exactly one toast: for Login the success toast when some
    record has the email and password, the invalid-credentials toast
    otherwise; for Register the success toast when no record has the email,
    the already-exists toast otherwise. *)
Theorem form_submit_shows_one_toast (name email password : string)
    (login_page : LoginPage.t) (register_page : RegisterPage.t) (st : state) :
  let matching :=
    ∃ u, u ∈ MOCK_USERS st ∧
         MockUser.email u = email ∧ MockUser.password u = password in
  let taken := ∃ u, u ∈ MOCK_USERS st ∧ MockUser.email u = email in
  (Login_onSubmit email password login_page st
     = (inr {| LoginPage.loading := false |}, (login email password st).2) ∧
   (matching →
    toasts (login email password st).2
      = toasts st ++ [toast_success_shown "Successfully logged in!"]) ∧
   (¬ matching →
    toasts (login email password st).2
      = toasts st ++ [toast_error_shown "Invalid email or password"])) ∧
  (Register_onSubmit name email password register_page st
     = (inr {| RegisterPage.loading := false |},
        (register name email password st).2) ∧
   (¬ taken →
    toasts (register name email password st).2
      = toasts st ++
        [toast_success_shown
           "Registration successful! You can now log in with your credentials."]) ∧
   (taken →
    toasts (register name email password st).2
      = toasts st ++
        [toast_error_shown "User with this email already exists"])).
Proof.
  intros matching taken. split.
  - destruct (find (λ u, bool_decide (MockUser.email u = email) &&
                         bool_decide (MockUser.password u = password))
                (MOCK_USERS st)) as [mockUser|] eqn:Hfind.
    + unfold Login_onSubmit. run.
      rewrite (login_found _ _ _ mockUser) by done. simpl.
      split; [done|]. split; [done|]. intros Hnone. destruct Hnone.
      apply find_credentials_Some in Hfind. by exists mockUser.
    + unfold Login_onSubmit. run. rewrite login_not_found by done. simpl.
      split; [done|]. split; [|done].
      intros [u Hu]%find_credentials_found. congruence.
  - destruct (find (λ u, bool_decide (MockUser.email u = email))
                (MOCK_USERS st)) as [existingUser|] eqn:Hemail.
    + unfold Register_onSubmit. run.
      rewrite (register_taken _ _ _ _ existingUser) by done. simpl.
      split; [done|]. split; [|done]. intros Hfree. destruct Hfree.
      apply find_email_Some in Hemail. by exists existingUser.
    + unfold Register_onSubmit. run. rewrite register_novel by done. simpl.
      split; [done|]. split; [done|].
      intros (u & Hin & He). by destruct (find_email_None _ _ Hemail u Hin).
Qed.

End FormFacts.

Section ReminderCompletion.
Context {A : Type}.
Variable api_put : string → M A.

Lemma handleToggleComplete_resolved (id : string) (isCompleted : bool)
    (page : RemindersPage.t) (st st1 : state) (a : A) :
  api_put ("/reminders/" +:+ id +:+ "/complete") st = (inr a, st1) →
  handleToggleComplete api_put id isCompleted page st =
    (inr (setReminders
            ((λ reminder,
                if bool_decide (RemindersPage.id reminder = id)
                then with_isCompleted (negb isCompleted) reminder
                else reminder)
               <$> RemindersPage.reminders page)
            page),
     with_toast
       (toast_success_shown
          ("Reminder marked as " +:+
           (if negb isCompleted then "completed" else "pending")))
       st1).
Proof. intros Hcall. unfold handleToggleComplete. run. by rewrite Hcall. Qed.

(** X24.  Completing a reminder and undoing it.  If the gateway call
    rejects, the handler does not throw, the list is unchanged and the
    failure toast is shown.  If it resolves, the reminders with the given id
    get the opposite of the flag passed in and the others are untouched; and
    when the flag passed in is the one those reminders carry, as the page
    passes it, a second toggle that resolves gives back the original list. *)
Theorem toggle_complete_round_trip (id : string) (isCompleted : bool)
    (page : RemindersPage.t) (st : state) :
  (∀ e st1,
     api_put ("/reminders/" +:+ id +:+ "/complete") st = (inl e, st1) →
     handleToggleComplete api_put id isCompleted page st =
       (inr page,
        with_toast (toast_error_shown "Failed to update reminder") st1)) ∧
  (∀ a st1,
     api_put ("/reminders/" +:+ id +:+ "/complete") st = (inr a, st1) →
     ∃ page1 st1',
       handleToggleComplete api_put id isCompleted page st
         = (inr page1, st1') ∧
       length (RemindersPage.reminders page1)
         = length (RemindersPage.reminders page) ∧
       (∀ i reminder,
          RemindersPage.reminders page !! i = Some reminder →
          RemindersPage.reminders page1 !! i =
            Some (if bool_decide (RemindersPage.id reminder = id)
                  then with_isCompleted (negb isCompleted) reminder
                  else reminder)) ∧
       (∀ a' st2,
          (∀ reminder, reminder ∈ RemindersPage.reminders page →
                       RemindersPage.id reminder = id →
                       RemindersPage.isCompleted reminder = isCompleted) →
          api_put ("/reminders/" +:+ id +:+ "/complete") st1' = (inr a', st2) →
          ∃ page2 st2',
            handleToggleComplete api_put id (negb isCompleted) page1 st1'
              = (inr page2, st2') ∧
            page2 = page)).
Proof.
  split.
  - intros e st1 Hcall. unfold handleToggleComplete. run. by rewrite Hcall.
  - intros a st1 Hcall. eexists _, _.
    split; [exact (handleToggleComplete_resolved _ _ _ st st1 a Hcall)|].
    simpl.
    split; [by rewrite length_fmap|]. split.
    + intros i reminder Hi. by rewrite list_lookup_fmap, Hi.
    + intros a' st2 Hflag Hcall2. eexists _, _.
      split; [eapply handleToggleComplete_resolved; exact Hcall2|].
      destruct page as [reminders loading showModal editing].
      unfold setReminders. simpl in *. f_equal.
      rewrite <- list_fmap_compose.
      rewrite <- (list_fmap_id reminders) at 2.
      apply list_fmap_ext. intros i reminder Hin%list_elem_of_lookup_2. simpl.
      destruct (decide (RemindersPage.id reminder = id)) as [Heq|Hne].
      * rewrite (bool_decide_eq_true_2 _ Heq). simpl.
        rewrite (bool_decide_eq_true_2 _ Heq).
        specialize (Hflag reminder Hin Heq).
        destruct reminder. simpl in *. subst.
        unfold with_isCompleted. simpl. by rewrite negb_involutive.
      * rewrite (bool_decide_eq_false_2 _ Hne).
        by rewrite (bool_decide_eq_false_2 _ Hne).
Qed.

End ReminderCompletion.

Lemma toggle_complete_round_trip_witness :
  let st := page_load ∅ "/reminders" 1700000000000 in
  let interview :=
    RemindersPage.mkReminder "1" "Google Interview"
      (Some "Technical interview with the frontend team") "2024-01-25" "14:00"
      "interview" None None false false in
  let page := RemindersPage.mk [interview] false false None in
  let backend_ok : string → M () := λ _, mret () in
  ∃ page1 st1 page2 st2,
    handleToggleComplete backend_ok "1" false page st = (inr page1, st1) ∧
    RemindersPage.isCompleted <$> RemindersPage.reminders page1 = [true] ∧
    handleToggleComplete backend_ok "1" true page1 st1 = (inr page2, st2) ∧
    page2 = page.
Proof.
  intros st interview page backend_ok.
  destruct (toggle_complete_round_trip backend_ok "1" false page st)
    as [_ Hok].
  destruct (Hok () st eq_refl) as (page1 & st1 & Hrun1 & _ & Hflags & Hback).
  exists page1, st1.
  destruct (Hback () st1) as (page2 & st2 & Hrun2 & Hsame).
  - intros reminder Hin _.
    apply list_elem_of_singleton in Hin as ->. reflexivity.
  - reflexivity.
  - exists page2, st2. split; [exact Hrun1|]. split; [|by split].
    apply list_eq. intros [|i]; rewrite list_lookup_fmap.
    + by rewrite (Hflags 0%nat interview eq_refl).
    + assert (RemindersPage.reminders page1 !! S i = None) as ->; [|done].
      apply lookup_ge_None_2.
      destruct (Hok () st eq_refl) as (p & s & Hp & Hlen & _).
      rewrite Hrun1 in Hp. injection Hp as <- <-. rewrite Hlen. simpl. lia.
Defined.
